(** * taskq consumer core: a shallow embedding and its specification

    The development follows the Go sources:
      - [consumer_config.go] : [perfProfile], [consumerConfig], [configRoulette];
      - [processor/processor.go] : the [Processor] (workers, slot locks,
        release/delete, start/stop, ProcessAll) and [exponentialBackoff].

    Go's [int] and [time.Duration] are taken as 64-bit two's complement
    integers, [int32]/[uint32] as 32-bit ones; all of them are embedded in [Z]
    with the wrap-around written out.  [float64] is the kernel's binary64. *)

From Stdlib Require Import ZArith Lia Bool String.
From Stdlib Require Import Floats.PrimFloat Floats.FloatOps.
From Stdlib Require Import Numbers.Cyclic.Int63.Uint63.
From stdpp Require Import base list.

Local Open Scope Z_scope.

(** ** Machine integers *)

Module GoInt.

(** Two's complement reduction to [w] bits, signed and unsigned. *)
Definition swrap (w : Z) (z : Z) : Z := (z + 2 ^ (w - 1)) mod 2 ^ w - 2 ^ (w - 1).
Definition uwrap (w : Z) (z : Z) : Z := z mod 2 ^ w.

Definition int64 := swrap 64.
Definition int32 := swrap 32.
Definition uint32 := uwrap 32.
Definition uint64 := uwrap 64.

Definition MaxInt64 : Z := 2 ^ 63 - 1.
Definition MinInt64 : Z := - 2 ^ 63.

Definition in_int64 (z : Z) : Prop := MinInt64 <= z <= MaxInt64.
Definition in_uint32 (z : Z) : Prop := 0 <= z < 2 ^ 32.

(** [x << s] on an [int64] with an unsigned count: the bits shifted out are
    lost, and a count of 64 or more leaves zero. *)
Definition shl64 (x s : Z) : Z :=
  if 64 <=? s then 0 else int64 (Z.shiftl x s).

(** [atomic.AddUint32(&c, 1)] and [atomic.AddUint32(&c, ^uint32(0))]. *)
Definition incr32 (c : Z) : Z := uint32 (c + 1).
Definition decr32 (c : Z) : Z := uint32 (c + (2 ^ 32 - 1)).

(** [float64(n)] for an [int64] [n]: round to nearest. *)
Definition float64_of_int (z : Z) : float :=
  if z =? MinInt64 then PrimFloat.opp 9223372036854775808%float
  else if z <? 0 then PrimFloat.opp (PrimFloat.of_uint63 (Uint63.of_Z (- z)))
  else PrimFloat.of_uint63 (Uint63.of_Z z).

(** Truncation of a finite [float64] towards zero. *)
Definition float64_trunc (f : float) : Z :=
  let '(m, e) := PrimFloat.frshiftexp (PrimFloat.abs f) in
  let mag := Z.shiftl (Uint63.to_Z (PrimFloat.normfr_mantissa m))
                      (Uint63.to_Z e - FloatOps.shift - FloatOps.prec) in
  if PrimFloat.ltb f 0%float then - mag else mag.

End GoInt.

(** ** [time.Duration] constants (nanoseconds) *)

Module time.
Definition Nanosecond : Z := 1.
Definition Microsecond : Z := 1000 * Nanosecond.
Definition Millisecond : Z := 1000 * Microsecond.
Definition Second : Z := 1000 * Millisecond.
Definition Minute : Z := 60 * Second.
Definition Hour : Z := 60 * Minute.

(** [t.Sub(u)] on monotonic clock readings: the difference, saturated to
    the range of a [Duration]. *)
Definition sub (t u : Z) : Z :=
  Z.max GoInt.MinInt64 (Z.min GoInt.MaxInt64 (t - u)).
End time.

(** ** consumer_config.go *)

Module taskq.

Record perfProfile := {
  start : Z;          (* clock reading taken by Reset *)
  processed : Z;
  retries : Z;
  timing : Z;
  tps : float;
  errorRate : float
}.

(** [Reset]: [now] is the value [time.Now()] yields. *)
Definition Reset (now : Z) (p : perfProfile) (processed0 retries0 : Z) : perfProfile :=
  {| start := now; processed := processed0; retries := retries0;
     timing := timing p; tps := tps p; errorRate := errorRate p |}.

(** [Update]: [now] is the clock reading behind [time.Since(p.start)]. *)
Definition Update (now : Z) (p : perfProfile) (processed1 retries1 timing1 : Z)
  : perfProfile :=
  let processedDiff := GoInt.int64 (processed1 - processed p) in
  let retriesDiff := GoInt.int64 (retries1 - retries p) in
  let total := GoInt.int64 (processedDiff + retriesDiff) in
  let elapsed := time.sub now (start p) in
  let elapsedMS :=
    PrimFloat.div (GoInt.float64_of_int elapsed) (GoInt.float64_of_int time.Millisecond) in
  {| start := start p; processed := processed p; retries := retries p;
     timing := timing1;
     tps := PrimFloat.div (GoInt.float64_of_int processedDiff) elapsedMS;
     errorRate :=
       if total >? 0
       then PrimFloat.div (GoInt.float64_of_int retriesDiff) (GoInt.float64_of_int total)
       else 0%float |}.

(** The options the roulette reads.  [QueueOptions] is declared outside the
    files at hand; these are the bounds the roulette is configured with. *)
Record QueueOptions := {
  MinNumWorker : Z;
  MaxNumWorker : Z;
  MinNumFetcher : Z;
  MaxNumFetcher : Z
}.

Record consumerConfig := {
  NumFetcher : Z;           (* int32 *)
  NumWorker : Z;            (* int32 *)
  profile : perfProfile;    (* the embedded perfProfile *)
  NumSelected : Z;
  Score : float
}.

Definition zeroProfile : perfProfile :=
  {| start := 0; processed := 0; retries := 0; timing := 0;
     tps := 0%float; errorRate := 0%float |}.

Definition NewConsumerConfig (numFetcher numWorker : Z) : consumerConfig :=
  {| NumFetcher := numFetcher; NumWorker := numWorker; profile := zeroProfile;
     NumSelected := 0; Score := 0%float |}.

Definition SetScore (cfg : consumerConfig) (score : float) : consumerConfig :=
  {| NumFetcher := NumFetcher cfg; NumWorker := NumWorker cfg;
     profile := profile cfg; NumSelected := NumSelected cfg;
     Score := if PrimFloat.eqb (Score cfg) 0%float then score
              else PrimFloat.div (PrimFloat.add (Score cfg) score) 2%float |}.

(** [Equal] against a non-nil config. *)
Definition Equal (cfg other : consumerConfig) : bool :=
  (NumWorker cfg =? NumWorker other) && (NumFetcher cfg =? NumFetcher other).

Definition Clone (cfg : consumerConfig) : consumerConfig :=
  NewConsumerConfig (NumFetcher cfg) (NumWorker cfg).

Definition setNumWorker (cfg : consumerConfig) (n : Z) : consumerConfig :=
  {| NumFetcher := NumFetcher cfg; NumWorker := n; profile := profile cfg;
     NumSelected := NumSelected cfg; Score := Score cfg |}.

Definition setNumFetcher (cfg : consumerConfig) (n : Z) : consumerConfig :=
  {| NumFetcher := n; NumWorker := NumWorker cfg; profile := profile cfg;
     NumSelected := NumSelected cfg; Score := Score cfg |}.

(** The roulette keeps a pointer to the config it was handed; [Select]
    updates that object in place and returns the same pointer, so the
    value below is both the roulette's [currCfg] and the caller's config. *)
Record configRoulette := {
  opt : QueueOptions;
  maxTPS : float;
  maxTiming : Z;
  currCfg : consumerConfig
}.

Definition setCurrCfg (r : configRoulette) (cfg : consumerConfig) : configRoulette :=
  {| opt := opt r; maxTPS := maxTPS r; maxTiming := maxTiming r; currCfg := cfg |}.

(** [hasFreeSystemResources] is a platform probe defined outside the files
    at hand; each call site receives its answer as [free]. *)
Definition withMoreWorkers (free : bool) (r : configRoulette) (n : Z) (queueEmpty : bool)
  : configRoulette :=
  if negb free then r
  else if queueEmpty then r
  else setCurrCfg r (setNumWorker (currCfg r) (GoInt.int32 (NumWorker (currCfg r) + n))).

Definition withMoreFetchers (free : bool) (r : configRoulette) : configRoulette :=
  if negb free then r
  else if NumFetcher (currCfg r) >=? MaxNumFetcher (opt r) then r
  else setCurrCfg r (setNumFetcher (currCfg r) (GoInt.int32 (NumFetcher (currCfg r) + 1))).

(** [free1] and [free2] answer the two probes of one [incrementConfig]. *)
Definition incrementConfig (free1 free2 : bool) (r : configRoulette) (queueEmpty : bool)
  : configRoulette :=
  withMoreFetchers free2 (withMoreWorkers free1 r 5 queueEmpty).

Definition Select (free1 free2 : bool) (r : configRoulette)
           (cfg : consumerConfig) (queueEmpty : bool)
  : configRoulette * consumerConfig :=
  let r' := incrementConfig free1 free2 (setCurrCfg r cfg) queueEmpty in
  (r', currCfg r').

(** A config is within the configured bounds. *)
Definition within_bounds (o : QueueOptions) (cfg : consumerConfig) : Prop :=
  MinNumFetcher o <= NumFetcher cfg <= MaxNumFetcher o /\
  MinNumWorker o <= NumWorker cfg <= MaxNumWorker o.

End taskq.

(** ** processor/processor.go *)

Module processor.

Import GoInt.

Definition consumerBackoff : Z := time.Second.
Definition maxBackoff : Z := 12 * time.Hour.
Definition stopTimeout : Z := 30 * time.Second.

(** The [timeout] constant of [lockWorker]. *)
Definition lockTimeout : Z := 1234 * time.Millisecond.

(** [exponentialBackoff]: [retry] is an [int], the count is [uint(retry - 1)]. *)
Definition exponentialBackoff (dur : Z) (retry : Z) : Z :=
  let dur := shl64 dur (uint64 (retry - 1)) in
  if dur >? maxBackoff then maxBackoff else dur.

(** *** Values *)

(** Error values.  The two sentinels and the shutdown error are the ones the
    package builds; any other error is [ErrOther], which carries its text and,
    when its dynamic type has a [Delay()] method, the delay it reports. *)
Inductive error :=
| ErrNotSupported
| ErrQueueEmpty
| ErrWorkersDidNotStop (timeout : Z)
| ErrOther (text : string) (delay : option Z).

(** [reason.(Delayer)]: the type assertion and the call of [Delay()]. *)
Definition asDelayer (e : error) : option Z :=
  match e with
  | ErrOther _ d => d
  | _ => None
  end.

(** [err == internal.ErrNotSupported]. *)
Definition isNotSupported (e : error) : bool :=
  match e with
  | ErrNotSupported => true
  | _ => false
  end.

Record Message := {
  Id : Z;
  Delay : Z;             (* time.Duration *)
  ReservedCount : Z      (* int *)
}.

Record Options := {
  WorkerNumber : Z;
  MaxWorkers : Z;
  BufferSize : Z;
  RetryLimit : Z;
  MinBackoff : Z;
  ReservationTimeout : Z
}.

(** What one handler call yields: its error, and the time the surrounding
    [time.Now()]/[time.Since] pair measures. *)
Record Run := {
  failure : option error;
  took : Z
}.

Record Queuer := {
  Name : string;
  Release : Message -> Z -> option error;
  DeleteBatch : list Message -> option error
}.

(** The Redis client behind the slot locks and the wake topic. *)
Record Redis := {
  Unlock : nat -> option error;
  Publish : string -> Z -> option error
}.

(** A [lock.Lock] handle as [New] builds it: the key
    ["<queue>:worker-lock:<slot>"] and the lock's TTL. *)
Record Lock := {
  keyQueue : string;
  keySlot : Z;
  LockTimeout : Z
}.

(** The atomically accessed [uint32] fields of the processor. *)
Inductive counter :=
| Started | ErrCount | DelayCount | DelaySec
| InFlight | Deleting | Processed | Fails | Retries | AvgDuration.

Definition counter_eqb (a b : counter) : bool :=
  match a, b with
  | Started, Started | ErrCount, ErrCount | DelayCount, DelayCount
  | DelaySec, DelaySec | InFlight, InFlight | Deleting, Deleting
  | Processed, Processed | Fails, Fails | Retries, Retries
  | AvgDuration, AvgDuration => true
  | _, _ => false
  end.

Inductive chan := ChanNil | ChanOpen | ChanClosed.

Record Processor := {
  q : Queuer;
  opt : Options;
  redis : Redis;
  handler : Message -> Run;
  fallbackHandler : option (Message -> option error);
  wg : Z;                      (* counter of the WaitGroup [wg] *)
  ch : list Message;           (* what the channel [ch] buffers, oldest first *)
  workersWG : Z;               (* counter of the WaitGroup [workersWG] *)
  stopWorkers : chan;
  workerChans : list bool;     (* per slot: a wake token is buffered *)
  workerLocks : list Lock;
  ctr : counter -> Z;
  strays : Z                   (* goroutines counted in [workersWG] that were
                                  launched before the current [stopWorkers]
                                  was made: its close does not reach them *)
}.

(** *** The environment *)

Inductive lock_reply :=
| Acquired                     (* Lock() = (true, nil) *)
| Busy                         (* Lock() = (false, nil) *)
| Failed (e : error).          (* Lock() = (_, err) *)

(** Which case of the [select] in [lockWorker] fired. *)
Inductive wake := Token | TimedOut.

(** One [ReserveN] call's answer. *)
Record reserve_reply := {
  msgs : list Message;
  rerr : option error
}.

(** What the rest of the system does while one call runs, in the order the
    call meets it: the answers of the shared lock, the outcome of each wait on
    an empty wake channel, the value of [inFlight] at each load in
    [ProcessAll], the answers of [ReserveN], whether the in-flight work
    drained before the timer of [stopWorkersTimeout], and whether the workers
    and the fetcher that see [stopWorkers] closed all return. *)
Record Env := {
  lockReplies : list lock_reply;
  wakes : list wake;
  inFlightReads : list Z;
  reserves : list reserve_reply;
  drains : list bool;
  exits : list bool
}.

Inductive goroutine :=
| GWorker (id : Z)
| GFetcher
| GReader
| GWaitInFlight.

Inductive log_line :=
| LogLockFailed (e : error)
| LogUnlockFailed (e : error)
| LogPublishFailed (e : error)
| LogRetry (delay : Z) (e : error)
| LogReleaseFailed (e : error)
| LogHandlerFailed (e : error)
| LogFallbackFailed (e : error)
| LogDeleteBatchFailed (e : error).

(** The calls a run makes on its collaborators, in order. *)
Inductive event :=
| Log (l : log_line)
| LockCall (slot : nat) (r : lock_reply)
| Wait (slot : nat) (timeout : Z) (w : wake)
| UnlockCall (slot : nat)
| PublishCall (channel : string) (slot : Z)
| Handle (m : Message)
| Fallback (m : Message)
| ReleaseCall (m : Message) (delay : Z)
| DeleteBatchCall (ms : list Message)
| BatchAdd (m : Message)
| BatchWait
| ChanSend (m : Message)
| Go (g : goroutine)
| MakeStop
| CloseStop
| WaitWorkers
| Sleep (d : Z)
| Reserve (n : Z).

Record World := {
  proc : Processor;
  env : Env;
  trace : list event
}.

(** A run is the run of one call on the goroutine that makes it.  The call
    returns, panics, or is [Pending]: it waits for something only another
    goroutine can do (a message taken off the full channel, a lock answer,
    the return of a worker) and that the environment, as far as it was
    described, does not do. *)
Inductive result (A : Type) :=
| Ok (a : A) (w : World)
| Panic (why : string) (w : World)
| Pending (w : World).

Arguments Ok {A} a w.
Arguments Panic {A} why w.
Arguments Pending {A} w.

Definition M (A : Type) : Type := World -> result A.

#[global] Instance M_ret : MRet M := fun A a w => Ok a w.

#[global] Instance M_bind : MBind M := fun A B k m w =>
  match m w with
  | Ok a w' => k a w'
  | Panic why w' => Panic why w'
  | Pending w' => Pending w'
  end.

Definition world_of {A} (r : result A) : World :=
  match r with
  | Ok _ w | Panic _ w | Pending w => w
  end.

Definition panic {A} (why : string) : M A := fun w => Panic why w.
Definition pending {A} : M A := fun w => Pending w.
Definition getProc : M Processor := fun w => Ok (proc w) w.
Definition getEnv : M Env := fun w => Ok (env w) w.

Definition putProc (p : Processor) : M unit := fun w =>
  Ok tt {| proc := p; env := env w; trace := trace w |}.

Definition putEnv (e : Env) : M unit := fun w =>
  Ok tt {| proc := proc w; env := e; trace := trace w |}.

Definition emit (ev : event) : M unit := fun w =>
  Ok tt {| proc := proc w; env := env w; trace := trace w ++ [ev] |}.

(** *** Field updates *)

Definition set_ctr (f : counter -> Z) (p : Processor) : Processor :=
  {| q := q p; opt := opt p; redis := redis p; handler := handler p;
     fallbackHandler := fallbackHandler p; wg := wg p; ch := ch p; workersWG := workersWG p;
     stopWorkers := stopWorkers p; workerChans := workerChans p;
     workerLocks := workerLocks p; ctr := f;
     strays := strays p |}.

Definition set_wg (n : Z) (p : Processor) : Processor :=
  {| q := q p; opt := opt p; redis := redis p; handler := handler p;
     fallbackHandler := fallbackHandler p; wg := n; ch := ch p; workersWG := workersWG p;
     stopWorkers := stopWorkers p; workerChans := workerChans p;
     workerLocks := workerLocks p; ctr := ctr p;
     strays := strays p |}.

Definition set_workersWG (n : Z) (p : Processor) : Processor :=
  {| q := q p; opt := opt p; redis := redis p; handler := handler p;
     fallbackHandler := fallbackHandler p; wg := wg p; ch := ch p; workersWG := n;
     stopWorkers := stopWorkers p; workerChans := workerChans p;
     workerLocks := workerLocks p; ctr := ctr p;
     strays := strays p |}.

Definition set_stopWorkers (c : chan) (p : Processor) : Processor :=
  {| q := q p; opt := opt p; redis := redis p; handler := handler p;
     fallbackHandler := fallbackHandler p; wg := wg p; ch := ch p; workersWG := workersWG p;
     stopWorkers := c; workerChans := workerChans p;
     workerLocks := workerLocks p; ctr := ctr p;
     strays := strays p |}.

Definition set_workerChans (l : list bool) (p : Processor) : Processor :=
  {| q := q p; opt := opt p; redis := redis p; handler := handler p;
     fallbackHandler := fallbackHandler p; wg := wg p; ch := ch p; workersWG := workersWG p;
     stopWorkers := stopWorkers p; workerChans := l;
     workerLocks := workerLocks p; ctr := ctr p;
     strays := strays p |}.

Definition set_ch (l : list Message) (p : Processor) : Processor :=
  {| q := q p; opt := opt p; redis := redis p; handler := handler p;
     fallbackHandler := fallbackHandler p; wg := wg p; ch := l;
     workersWG := workersWG p; stopWorkers := stopWorkers p;
     workerChans := workerChans p; workerLocks := workerLocks p; ctr := ctr p;
     strays := strays p |}.

Definition set_strays (n : Z) (p : Processor) : Processor :=
  {| q := q p; opt := opt p; redis := redis p; handler := handler p;
     fallbackHandler := fallbackHandler p; wg := wg p; ch := ch p;
     workersWG := workersWG p; stopWorkers := stopWorkers p;
     workerChans := workerChans p; workerLocks := workerLocks p; ctr := ctr p;
     strays := n |}.

Definition upd (c : counter) (v : Z) (f : counter -> Z) : counter -> Z :=
  fun c' => if counter_eqb c c' then v else f c'.

(** *** Atomics and WaitGroups *)

Definition LoadUint32 (c : counter) : M Z :=
  p ← getProc; mret (ctr p c).

Definition StoreUint32 (c : counter) (v : Z) : M unit :=
  p ← getProc; putProc (set_ctr (upd c v (ctr p)) p).

Definition AddUint32 (c : counter) (delta : Z) : M unit :=
  p ← getProc; putProc (set_ctr (upd c (uint32 (ctr p c + delta)) (ctr p)) p).

Definition CompareAndSwapUint32 (c : counter) (old new : Z) : M bool :=
  p ← getProc;
  if ctr p c =? old
  then putProc (set_ctr (upd c new (ctr p)) p);; mret true
  else mret false.

(** [wg.Add(n)]; a counter that would go negative is a panic. *)
Definition wgAdd (n : Z) : M unit :=
  p ← getProc;
  if wg p + n <? 0 then panic "sync: negative WaitGroup counter"
  else putProc (set_wg (wg p + n) p).

Definition wgDone : M unit := wgAdd (-1).

Definition workersWGAdd (n : Z) : M unit :=
  p ← getProc;
  if workersWG p + n <? 0 then panic "sync: negative WaitGroup counter"
  else putProc (set_workersWG (workersWG p + n) p).

(** [s[i]] on a slice, [i] an [int]. *)
Definition index {A} (s : list A) (i : Z) : option A :=
  if i <? 0 then None else s !! Z.to_nat i.

(** *** Consuming the environment *)

Definition set_lockReplies (l : list lock_reply) (e : Env) : Env :=
  {| lockReplies := l; wakes := wakes e; inFlightReads := inFlightReads e;
     reserves := reserves e; drains := drains e;
     exits := exits e |}.

Definition set_wakes (l : list wake) (e : Env) : Env :=
  {| lockReplies := lockReplies e; wakes := l; inFlightReads := inFlightReads e;
     reserves := reserves e; drains := drains e;
     exits := exits e |}.

Definition set_inFlightReads (l : list Z) (e : Env) : Env :=
  {| lockReplies := lockReplies e; wakes := wakes e; inFlightReads := l;
     reserves := reserves e; drains := drains e;
     exits := exits e |}.

Definition set_reserves (l : list reserve_reply) (e : Env) : Env :=
  {| lockReplies := lockReplies e; wakes := wakes e; inFlightReads := inFlightReads e;
     reserves := l; drains := drains e;
     exits := exits e |}.

Definition set_drains (l : list bool) (e : Env) : Env :=
  {| lockReplies := lockReplies e; wakes := wakes e; inFlightReads := inFlightReads e;
     reserves := reserves e; drains := l;
     exits := exits e |}.

Definition set_exits (l : list bool) (e : Env) : Env :=
  {| lockReplies := lockReplies e; wakes := wakes e; inFlightReads := inFlightReads e;
     reserves := reserves e; drains := drains e; exits := l |}.

Definition nextLock : M lock_reply :=
  e ← getEnv;
  match lockReplies e with
  | [] => pending
  | r :: rs => putEnv (set_lockReplies rs e);; mret r
  end.

Definition nextWake : M wake :=
  e ← getEnv;
  match wakes e with
  | [] => pending
  | x :: xs => putEnv (set_wakes xs e);; mret x
  end.

Definition nextReserve : M reserve_reply :=
  e ← getEnv;
  match reserves e with
  | [] => pending
  | x :: xs => putEnv (set_reserves xs e);; mret x
  end.

Definition nextDrain : M bool :=
  e ← getEnv;
  match drains e with
  | [] => pending
  | x :: xs => putEnv (set_drains xs e);; mret x
  end.

Definition nextExit : M bool :=
  e ← getEnv;
  match exits e with
  | [] => pending
  | x :: xs => putEnv (set_exits xs e);; mret x
  end.

(** [atomic.LoadUint32(&p.inFlight)] in a loop that runs beside the workers:
    the counter holds whatever they left there. *)
Definition loadInFlight : M Z :=
  e ← getEnv;
  match inFlightReads e with
  | [] => pending
  | x :: xs =>
      putEnv (set_inFlightReads xs e);;
      StoreUint32 InFlight (uint32 x);;
      LoadUint32 InFlight
  end.

(** *** Construction *)

Definition newLocks (o : Options) (name : string) : list Lock :=
  map (fun i : nat => {| keyQueue := name; keySlot := Z.of_nat i;
                         LockTimeout := ReservationTimeout o |})
      (seq 0 (Z.to_nat (MaxWorkers o))).

(** [New], after [opt.Init()]. *)
Definition New (qu : Queuer) (o : Options) (rd : Redis) (h : Message -> Run)
           (fb : option (Message -> option error)) : M unit :=
  putProc {| q := qu; opt := o; redis := rd; handler := h; fallbackHandler := fb;
             wg := 0; ch := []; workersWG := 0; stopWorkers := ChanNil;
             workerChans :=
               if MaxWorkers o >? 0 then replicate (Z.to_nat (MaxWorkers o)) false else [];
             workerLocks :=
               if MaxWorkers o >? 0 then newLocks o (Name qu) else [];
             ctr := fun _ => 0; strays := 0 |};;
  if MaxWorkers o >? 0 then emit (Go GReader) else mret tt.

(** *** Pause controller *)

Definition stopped : M bool :=
  s ← LoadUint32 Started; mret (s =? 0).

Definition paused : M Z :=
  dc ← LoadUint32 DelayCount;
  if dc >? 100 then ds ← LoadUint32 DelaySec; mret (int64 (ds * time.Second))
  else
    ec ← LoadUint32 ErrCount;
    if ec >? 100 then mret time.Minute else mret 0.

Definition resetPause : M unit :=
  StoreUint32 ErrCount 0;; StoreUint32 DelayCount 0.

(** *** Slot coordinator *)

Definition redisWorkerFreeChannel (p : Processor) : string :=
  String.append (Name (q p)) (String.append ":" "worker-free").

(** The [select] of [lockWorker]: a buffered token is taken at once;
    otherwise the environment says whether one arrives before the timer. *)
Definition waitSlot (slot : nat) : M unit :=
  p ← getProc;
  match workerChans p !! slot with
  | Some true =>
      putProc (set_workerChans (<[slot := false]> (workerChans p)) p);;
      emit (Wait slot lockTimeout Token)
  | _ =>
      x ← nextWake;
      emit (Wait slot lockTimeout x)
  end.

Fixpoint lockWorker_loop (fuel : nat) (slot : nat) : M unit :=
  match fuel with
  | O => pending
  | S fuel' =>
      r ← nextLock;
      emit (LockCall slot r);;
      match r with
      | Failed e => emit (Log (LogLockFailed e))
      | Acquired => mret tt
      | Busy => waitSlot slot;; lockWorker_loop fuel' slot
      end
  end.

Definition lockWorker (id : Z) : M unit :=
  p ← getProc;
  match index (workerChans p) id, index (workerLocks p) id with
  | Some _, Some _ =>
      e ← getEnv;
      lockWorker_loop (S (length (lockReplies e))) (Z.to_nat id)
  | _, _ => panic "index out of range"
  end.

Definition unlockWorker (id : Z) : M unit :=
  p ← getProc;
  match index (workerLocks p) id with
  | None => panic "index out of range"
  | Some _ =>
      emit (UnlockCall (Z.to_nat id));;
      match Unlock (redis p) (Z.to_nat id) with
      | Some e => emit (Log (LogUnlockFailed e))
      | None => mret tt
      end;;
      emit (PublishCall (redisWorkerFreeChannel p) id);;
      match Publish (redis p) (redisWorkerFreeChannel p) id with
      | Some e => emit (Log (LogPublishFailed e))
      | None => mret tt
      end
  end.

(** One round of [readWorkerMessages] for a payload that parses as
    [workerId]: a non-blocking send on the slot's channel. *)
Definition deliverWake (workerId : Z) : M unit :=
  p ← getProc;
  match index (workerChans p) workerId with
  | None => panic "index out of range"
  | Some _ => putProc (set_workerChans (<[Z.to_nat workerId := true]> (workerChans p)) p)
  end.

(** *** Release and delete *)

Definition releaseBackoff (msg : Message) (reason : option error) : M Z :=
  match reason ≫= asDelayer with
  | Some delay =>
      (if delay >? time.Minute
       then StoreUint32 DelaySec (uint32 (Z.quot delay time.Second));;
            AddUint32 DelayCount 1
       else mret tt);;
      mret delay
  | None =>
      if Delay msg >? 0 then mret (Delay msg)
      else
        p ← getProc;
        mret (exponentialBackoff (MinBackoff (opt p)) (ReservedCount msg))
  end.

Definition release (msg : Message) (reason : option error) : M unit :=
  delay ← releaseBackoff msg reason;
  match reason with
  | Some e => emit (Log (LogRetry delay e))
  | None => mret tt
  end;;
  p ← getProc;
  emit (ReleaseCall msg delay);;
  match Release (q p) msg delay with
  | Some e => emit (Log (LogReleaseFailed e))
  | None => mret tt
  end;;
  AddUint32 InFlight (2 ^ 32 - 1);;
  wgDone.

Definition delete (msg : Message) (reason : option error) : M unit :=
  match reason with
  | None => resetPause
  | Some e =>
      emit (Log (LogHandlerFailed e));;
      p ← getProc;
      match fallbackHandler p with
      | Some fb =>
          emit (Fallback msg);;
          match fb msg with
          | Some e' => emit (Log (LogFallbackFailed e'))
          | None => mret tt
          end
      | None => mret tt
      end
  end;;
  AddUint32 InFlight (2 ^ 32 - 1);;
  AddUint32 Deleting 1;;
  emit (BatchAdd msg).

Fixpoint wgDoneTimes (n : nat) : M unit :=
  match n with
  | O => mret tt
  | S n' => wgDone;; wgDoneTimes n'
  end.

(** The batcher's callback. *)
Definition deleteBatch (ms : list Message) : M unit :=
  p ← getProc;
  emit (DeleteBatchCall ms);;
  match DeleteBatch (q p) ms with
  | Some e => emit (Log (LogDeleteBatchFailed e))
  | None => mret tt
  end;;
  AddUint32 Deleting (2 ^ 32 - Z.of_nat (length ms));;
  wgDoneTimes (length ms).

(** *** Processing one message *)

Definition decay : float := PrimFloat.div 1%float 100%float.

(** The compare-and-swap succeeds at once when nothing else writes. *)
Definition updateAvgDuration (dur : Z) : M unit :=
  let ms := float64_of_int (Z.quot dur time.Millisecond) in
  avg ← LoadUint32 AvgDuration;
  let newAvg :=
    uint32 (float64_trunc
              (PrimFloat.add
                 (PrimFloat.mul (PrimFloat.sub 1%float decay) (float64_of_int avg))
                 (PrimFloat.mul decay ms))) in
  StoreUint32 AvgDuration newAvg.

Definition process (workerId : Z) (msg : Message) : M (option error) :=
  if Delay msg >? 0 then release msg None;; mret None
  else
    p ← getProc;
    (if (workerId >=? 0) && (MaxWorkers (opt p) >? 0)
     then lockWorker workerId else mret tt);;
    emit (Handle msg);;
    let run := handler p msg in
    updateAvgDuration (took run);;
    (if (workerId >=? 0) && (MaxWorkers (opt p) >? 0)
     then unlockWorker workerId else mret tt);;
    match failure run with
    | None =>
        AddUint32 Processed 1;;
        delete msg None;;
        mret None
    | Some err =>
        (if ReservedCount msg <? RetryLimit (opt p)
         then AddUint32 Retries 1;; release msg (Some err)
         else AddUint32 Fails 1;; delete msg (Some err));;
        mret (Some err)
    end.

(** [p.ch <- msg].  The channel buffers up to [BufferSize] messages.  A send
    on a full channel waits until a message is received; the receivers are
    the workers, other goroutines than the one that runs the call. *)
Definition send (msg : Message) : M unit :=
  p ← getProc;
  if Z.of_nat (length (ch p)) <? BufferSize (opt p)
  then putProc (set_ch (ch p ++ [msg]) p);; emit (ChanSend msg)
  else pending.

Definition Add (msg : Message) : M (option error) :=
  wgAdd 1;;
  AddUint32 InFlight 1;;
  send msg;;
  mret None.

(** A receive that does not wait:
    [select { case msg := <-p.ch: ...; default: ... }]. *)
Definition tryReceive : M (option Message) :=
  p ← getProc;
  match ch p with
  | [] => mret None
  | msg :: rest => putProc (set_ch rest p);; mret (Some msg)
  end.

Definition Process (msg : Message) : M (option error) :=
  wgAdd 1;;
  process (-1) msg.

(** *** Lifecycle *)

Fixpoint spawnWorkers (n : nat) (i : Z) : M unit :=
  match n with
  | O => mret tt
  | S n' => emit (Go (GWorker i));; spawnWorkers n' (i + 1)
  end.

Definition startWorkers : M bool :=
  swapped ← CompareAndSwapUint32 Started 0 1;
  if negb swapped then mret false
  else
    p ← getProc;
    (* whoever is still counted waits on the channel that is replaced here *)
    putProc (set_stopWorkers ChanOpen (set_strays (workersWG p) p));;
    emit MakeStop;;
    workersWGAdd (WorkerNumber (opt p));;
    spawnWorkers (Z.to_nat (WorkerNumber (opt p))) 0;;
    mret true.

Definition Start : M (option error) :=
  started ← startWorkers;
  if negb started then mret None
  else
    workersWGAdd 1;;
    emit (Go GFetcher);;
    mret None.

(** [close(p.stopWorkers)]. *)
Definition closeStopWorkers : M unit :=
  p ← getProc;
  match stopWorkers p with
  | ChanOpen => putProc (set_stopWorkers ChanClosed p);; emit CloseStop
  | ChanNil => panic "close of nil channel"
  | ChanClosed => panic "close of closed channel"
  end.

(** [p.workersWG.Wait()] after the close: it returns when every goroutine
    counted in [workersWG] has returned.  The close reaches the goroutines
    launched on the channel just closed, and the environment says whether
    they all return; a goroutine left over from before that channel was made
    waits on the replaced one, and the wait does not end. *)
Definition waitWorkers : M unit :=
  p ← getProc;
  if strays p =? 0
  then
    gone ← nextExit;
    if (gone : bool) then putProc (set_workersWG 0 p) else pending
  else pending.

Definition stopWorkersTimeout (timeout : Z) : M (option error) :=
  swapped ← CompareAndSwapUint32 Started 1 0;
  if negb swapped then mret None
  else
    emit (Go GWaitInFlight);;
    drained ← nextDrain;
    if (drained : bool)
    then
      p ← getProc;
      putProc (set_wg 0 p);;               (* wg.Wait() returned *)
      closeStopWorkers;;
      emit WaitWorkers;;
      waitWorkers;;
      (* delBatch.Wait(): every message was settled, nothing is left to flush *)
      emit BatchWait;;
      mret None
    else mret (Some (ErrWorkersDidNotStop timeout)).

Definition Stop : M (option error) := stopWorkersTimeout stopTimeout.

Definition StopTimeout (timeout : Z) : M (option error) := stopWorkersTimeout timeout.

(** *** Fetching *)

Fixpoint addAll (ms : list Message) : M unit :=
  match ms with
  | [] => mret tt
  | m :: ms' => Add m;; addAll ms'
  end.

Definition fetchMessages : M (Z * option error) :=
  p ← getProc;
  emit (Reserve (BufferSize (opt p)));;
  r ← nextReserve;
  match rerr r with
  | Some err => mret (0, Some err)
  | None => addAll (msgs r);; mret (Z.of_nat (length (msgs r)), None)
  end.

(** The loop of [ProcessAll]: [Some err] is the [return err] inside it,
    [None] the [break]. *)
Fixpoint ProcessAll_loop (fuel : nat) (noWork : Z) : M (option error) :=
  match fuel with
  | O => pending
  | S fuel' =>
      inflight ← loadInFlight;
      let isIdle := inflight =? 0 in
      '(n, err) ← fetchMessages;
      let fatal :=
        match err with
        | Some e => negb (isNotSupported e)
        | None => false
        end in
      if fatal then mret err
      else
        let noWork' := if (n =? 0) && isIdle then noWork + 1 else 0 in
        if noWork' =? 2 then mret None
        else
          match err with
          | Some e =>
              if isNotSupported e then emit (Sleep (100 * time.Millisecond)) else mret tt
          | None => mret tt
          end;;
          ProcessAll_loop fuel' noWork'
  end.

Definition ProcessAll : M (option error) :=
  startWorkers;;
  e ← getEnv;
  r ← ProcessAll_loop (S (length (reserves e))) 0;
  match r with
  | Some err => mret (Some err)
  | None => stopWorkersTimeout stopTimeout
  end.

End processor.

(** * Vocabulary of the statements *)

Module Runs.

Import GoInt processor.

(** The events a run appended to the trace it started from. *)
Definition appended (w w' : World) (evs : list event) : Prop :=
  trace w' = trace w ++ evs.

(** Events of the polling loop on [slot]. *)
Definition on_slot (slot : nat) (ev : event) : Prop :=
  match ev with
  | LockCall s _ => s = slot
  | Wait s t _ => s = slot /\ t = lockTimeout
  | _ => False
  end.

(** The goroutines [startWorkers] launches for [n] workers from id [i] on. *)
Fixpoint launched (n : nat) (i : Z) : list event :=
  match n with
  | O => []
  | S n' => Go (GWorker i) :: launched n' (i + 1)
  end.

(** Events that touch no slot lock and no wake channel. *)
Definition off_slots (ev : event) : Prop :=
  match ev with
  | LockCall _ _ | Wait _ _ _ | UnlockCall _ => False
  | _ => True
  end.

(** What [lockWorker] logs after the Lock() answer it returns on. *)
Definition lockLog (r : lock_reply) : list event :=
  match r with
  | Failed e => [Log (LogLockFailed e)]
  | _ => []
  end.

(** The rounds of a polling loop that met a held lock [length ws] times:
    a refused Lock(), then a wait that ended as [ws] says. *)
Fixpoint rounds (slot : nat) (ws : list wake) : list event :=
  match ws with
  | [] => []
  | x :: ws' => LockCall slot Busy :: Wait slot lockTimeout x :: rounds slot ws'
  end.

(** What a returned [lockWorker] on [slot] leaves in the trace: rounds of
    polling, then a Lock() call that answered [Acquired] or an error, and
    the log line of the error. *)
Definition lock_events (slot : nat) (levs : list event) : Prop :=
  exists pre r, r <> Busy /\ Forall (on_slot slot) pre /\
                levs = pre ++ LockCall slot r :: lockLog r.

(** Events of the slot lock: none of them is a call of the handler or of
    the queue. *)
Definition lockish (ev : event) : Prop :=
  match ev with
  | LockCall _ _ | Wait _ _ _ | Log (LogLockFailed _) => True
  | _ => False
  end.

(** Everything of the processor that the polling loop leaves alone. *)
Definition lock_frame (p p' : Processor) : Prop :=
  q p' = q p /\ opt p' = opt p /\ redis p' = redis p /\ handler p' = handler p /\
  fallbackHandler p' = fallbackHandler p /\ wg p' = wg p /\
  workersWG p' = workersWG p /\ stopWorkers p' = stopWorkers p /\
  workerLocks p' = workerLocks p /\ ctr p' = ctr p /\
  length (workerChans p') = length (workerChans p) /\
  ch p' = ch p /\ strays p' = strays p.

(** The slices [New] allocates for [MaxWorkers] slots. *)
Definition slots_allocated (p : Processor) : Prop :=
  length (workerChans p) = Z.to_nat (MaxWorkers (opt p)) /\
  length (workerLocks p) = Z.to_nat (MaxWorkers (opt p)).

(** The slot phase of [process workerId] has what it needs to return: slot
    locking is off for this call; or the worker's slot exists, no wake is
    buffered for it, and the shared lock answers [Acquired] or an error
    after as many refusals as the environment has outcomes [ws] for the
    waits in between. *)
Definition slot_ready (workerId : Z) (w : World) : Prop :=
  (workerId >=? 0) && (MaxWorkers (opt (proc w)) >? 0) = false \/
  (0 <= workerId < MaxWorkers (opt (proc w)) /\
   slots_allocated (proc w) /\
   workerChans (proc w) !! Z.to_nat workerId = Some false /\
   exists ws ws' r rest,
     r <> Busy /\
     lockReplies (env w) = repeat Busy (length ws) ++ r :: rest /\
     wakes (env w) = ws ++ ws').

(** [process] from the call of the handler on, for a message that is due:
    what follows the acquisition of the slot.  [p] is the processor as
    [process] read it on entry. *)
Definition process_tail (p : Processor) (workerId : Z) (msg : Message)
  : M (option error) :=
  emit (Handle msg);;
  let run := handler p msg in
  updateAvgDuration (took run);;
  (if (workerId >=? 0) && (MaxWorkers (opt p) >? 0)
   then unlockWorker workerId else mret tt);;
  match failure run with
  | None =>
      AddUint32 Processed 1;;
      delete msg None;;
      mret None
  | Some err =>
      (if ReservedCount msg <? RetryLimit (opt p)
       then AddUint32 Retries 1;; release msg (Some err)
       else AddUint32 Fails 1;; delete msg (Some err));;
      mret (Some err)
  end.

(** Events of the fetch loop of [ProcessAll]. *)
Definition fetch_event (ev : event) : Prop :=
  match ev with
  | Reserve _ | ChanSend _ | Sleep _ => True
  | _ => False
  end.

(** What the fetch loop leaves alone: the started flag, [stopWorkers], the
    options, and what only [stopWorkersTimeout] reads (the timer answers,
    the goroutines it waits for); and it keeps the in-flight WaitGroup from
    going negative. *)
Definition fetch_frame (w w' : World) : Prop :=
  ctr (proc w') Started = ctr (proc w) Started /\
  stopWorkers (proc w') = stopWorkers (proc w) /\
  opt (proc w') = opt (proc w) /\
  drains (env w') = drains (env w) /\
  strays (proc w') = strays (proc w) /\
  exits (env w') = exits (env w) /\
  (0 <= wg (proc w) -> 0 <= wg (proc w')) /\
  exists evs, appended w w' evs /\ Forall fetch_event evs.

(** One iteration of the fetch loop, as the environment shapes it: the
    value of [inFlight] it loads and the answer of [ReserveN]. *)
Definition tick : Type := Z * reserve_reply.

Definition fatal (t : tick) : option error :=
  match rerr (snd t) with
  | Some e => if isNotSupported e then None else Some e
  | None => None
  end.

Definition idle (t : tick) : bool :=
  match rerr (snd t) with
  | Some _ => uint32 (fst t) =? 0
  | None => (Z.of_nat (length (msgs (snd t))) =? 0) && (uint32 (fst t) =? 0)
  end.

(** The messages an iteration sends to the channel. *)
Definition batch (t : tick) : nat :=
  match rerr (snd t) with
  | Some _ => 0%nat
  | None => length (msgs (snd t))
  end.

Fixpoint fetched (ts : list tick) : nat :=
  match ts with
  | [] => 0%nat
  | t :: ts' => (batch t + fetched ts')%nat
  end.

(** The channel has room for [n] more messages. *)
Definition room (p : Processor) (n : nat) : Prop :=
  Z.of_nat (length (ch p)) + Z.of_nat n <= BufferSize (opt p).

(** The idle count after the iterations [ts], started at [noWork];
    [None] when one of them leaves the loop. *)
Fixpoint noWorkAfter (noWork : Z) (ts : list tick) : option Z :=
  match ts with
  | [] => Some noWork
  | t :: ts' =>
      match fatal t with
      | Some _ => None
      | None =>
          let noWork' := if idle t then noWork + 1 else 0 in
          if noWork' =? 2 then None else noWorkAfter noWork' ts'
      end
  end.

End Runs.

(** * Sample configurations *)

Module Samples.

Import GoInt processor.

Definition roulette0 : taskq.configRoulette :=
  {| taskq.opt := {| taskq.MinNumWorker := 1; taskq.MaxNumWorker := 10;
                     taskq.MinNumFetcher := 1; taskq.MaxNumFetcher := 4 |};
     taskq.maxTPS := 0%float; taskq.maxTiming := 0;
     taskq.currCfg := taskq.NewConsumerConfig 1 1 |}.

Definition queue0 : Queuer :=
  {| Name := "mail"; Release := fun _ _ => None; DeleteBatch := fun _ => None |}.

Definition redis0 : Redis :=
  {| Unlock := fun _ => None; Publish := fun _ _ => None |}.

(** Three workers over two slots. *)
Definition options0 : Options :=
  {| WorkerNumber := 3; MaxWorkers := 2; BufferSize := 10; RetryLimit := 2;
     MinBackoff := time.Millisecond; ReservationTimeout := 10 * time.Second |}.

(** No slot locking, and no retries. *)
Definition options1 : Options :=
  {| WorkerNumber := 2; MaxWorkers := 0; BufferSize := 10; RetryLimit := 0;
     MinBackoff := time.Millisecond; ReservationTimeout := 10 * time.Second |}.

Definition boom : error := ErrOther "boom" None.
Definition down : error := ErrOther "redis: connection refused" None.

(** Succeeds on message 0 and fails on every other one. *)
Definition handler0 (m : Message) : Run :=
  {| failure := if Id m =? 0 then None else Some boom;
     took := 5 * time.Millisecond |}.

Definition msg0 : Message := {| Id := 0; Delay := 0; ReservedCount := 0 |}.
Definition msg1 : Message := {| Id := 1; Delay := 0; ReservedCount := 1 |}.

Definition quiet : Env :=
  {| lockReplies := []; wakes := []; inFlightReads := []; reserves := [];
     drains := []; exits := [] |}.

Definition blank : Processor :=
  {| q := queue0; opt := options0; redis := redis0; handler := handler0;
     fallbackHandler := None; wg := 0; ch := []; workersWG := 0;
     stopWorkers := ChanNil; workerChans := []; workerLocks := [];
     ctr := fun _ => 0; strays := 0 |}.

Definition on (p : Processor) (e : Env) : World :=
  {| proc := p; env := e; trace := [] |}.

(** A processor fresh from [New], in the given environment. *)
Definition fresh (o : Options) (e : Env) : World :=
  on (proc (world_of (New queue0 o redis0 handler0 None (on blank quiet)))) e.

(** The same after [Start]. *)
Definition running (o : Options) (e : Env) : World :=
  on (proc (world_of (Start (fresh o quiet)))) e.

(** The processor of [w] after [Add msg] and the receive of [msg] from the
    channel: a worker holds the message. *)
Definition handed (msg : Message) (w : World) : World :=
  on (proc (world_of ((Add msg;; tryReceive) w))) (env w).

End Samples.

(** * Repeated selection and further entry points *)

Module Tuning.

Import taskq.

(** [n] calls of [Select] in a row, each on the config the previous one
    returned, while resources are free and the queue is not empty. *)
Fixpoint selectN (n : nat) (r : configRoulette) (cfg : consumerConfig)
  : configRoulette * consumerConfig :=
  match n with
  | O => (r, cfg)
  | S n' => selectN n' (fst (Select true true r cfg false))
                       (snd (Select true true r cfg false))
  end.

End Tuning.

Module entrypoints.

Import GoInt processor.

(** The loop of [Purge]; every round takes one message off the channel. *)
Fixpoint Purge_loop (fuel : nat) : M (option error) :=
  match fuel with
  | O => pending
  | S fuel' =>
      got ← tryReceive;
      match got with
      | Some msg => delete msg None;; Purge_loop fuel'
      | None => mret None
      end
  end.

Definition Purge : M (option error) :=
  p ← getProc;
  Purge_loop (S (length (ch p))).

(** [reserveOne]: the result is the message or the error. *)
Definition reserveOne : M (Message + error) :=
  got ← tryReceive;
  match got with
  | Some msg => mret (inl msg)
  | None =>
      emit (Reserve 1);;
      r ← nextReserve;
      match rerr r with
      | Some err =>
          if negb (isNotSupported err) then mret (inr err)
          else
            match msgs r with
            | [] => mret (inr ErrQueueEmpty)
            | m :: _ => AddUint32 InFlight 1;; mret (inl m)
            end
      | None =>
          match msgs r with
          | [] => mret (inr ErrQueueEmpty)
          | m :: _ => AddUint32 InFlight 1;; mret (inl m)
          end
      end
  end.

(** [ProcessOne]: [waitErr] is what [delBatch.Wait()] returns. *)
Definition ProcessOne (waitErr : option error) : M (option error) :=
  got ← reserveOne;
  match got with
  | inr err => mret (Some err)
  | inl msg =>
      firstErr ← Process msg;
      emit BatchWait;;
      match waitErr, firstErr with
      | Some err, None => mret (Some err)
      | _, _ => mret firstErr
      end
  end.

(** [Stats]: the snapshot of the six counters. *)
Record Stats := {
  StatsInFlight : Z;
  StatsDeleting : Z;
  StatsProcessed : Z;
  StatsRetries : Z;
  StatsFails : Z;
  StatsAvgDuration : Z
}.

Definition getStats : M Stats :=
  i ← LoadUint32 InFlight;
  d ← LoadUint32 Deleting;
  p ← LoadUint32 Processed;
  r ← LoadUint32 Retries;
  f ← LoadUint32 Fails;
  a ← LoadUint32 AvgDuration;
  mret {| StatsInFlight := i; StatsDeleting := d; StatsProcessed := p;
          StatsRetries := r; StatsFails := f;
          StatsAvgDuration := int64 (a * time.Millisecond) |}.

End entrypoints.

(** * Sequences of calls *)

Module Calls.

Import GoInt processor.

(** The lifecycle calls of the public interface. *)
Inductive call :=
| CallStart
| CallStop
| CallStopTimeout (d : Z).

Definition perform (c : call) : M (option error) :=
  match c with
  | CallStart => Start
  | CallStop => Stop
  | CallStopTimeout d => StopTimeout d
  end.

Fixpoint performAll (cs : list call) : M unit :=
  match cs with
  | [] => mret tt
  | c :: cs' => perform c;; performAll cs'
  end.

(** [n] runs of [m] in a row. *)
Fixpoint times {A} (n : nat) (m : M A) : M unit :=
  match n with
  | O => mret tt
  | S n' => m;; times n' m
  end.

(** What the lifecycle calls keep: a started processor has an open
    [stopWorkers], and the workers' WaitGroup is not negative. *)
Definition lifecycle_inv (w : World) : Prop :=
  (ctr (proc w) Started = 1 -> stopWorkers (proc w) = ChanOpen) /\
  0 <= workersWG (proc w) /\
  0 <= WorkerNumber (opt (proc w)).

End Calls.

(** * Properties *)

(** ** Machine arithmetic *)

Section Arithmetic.

Import GoInt.

Lemma swrap_id (w z : Z) :
  0 < w -> - 2 ^ (w - 1) <= z < 2 ^ (w - 1) -> swrap w z = z.
Proof.
  intros Hw Hz. unfold swrap.
  assert (Hp : 2 ^ w = 2 * 2 ^ (w - 1)).
  { rewrite <- Z.pow_succ_r by lia. f_equal. lia. }
  rewrite Z.mod_small; lia.
Qed.

Lemma int64_id (z : Z) : in_int64 z -> int64 z = z.
Proof.
  unfold in_int64, MinInt64, MaxInt64, int64. intros H.
  apply swrap_id; simpl Z.sub; lia.
Qed.

Lemma int32_id (z : Z) : - 2 ^ 31 <= z < 2 ^ 31 -> int32 z = z.
Proof. intros H. unfold int32. apply swrap_id; simpl Z.sub; lia. Qed.

Lemma uint32_id (z : Z) : in_uint32 z -> uint32 z = z.
Proof. unfold in_uint32, uint32, uwrap. intros H. apply Z.mod_small. lia. Qed.

Lemma uint32_range (z : Z) : in_uint32 (uint32 z).
Proof. unfold in_uint32, uint32, uwrap. apply Z.mod_pos_bound. lia. Qed.

Lemma time_sub_id (t u : Z) : in_int64 (t - u) -> time.sub t u = t - u.
Proof. unfold in_int64, time.sub. lia. Qed.

End Arithmetic.

(** ** Backoff *)

Section Backoff.

Import GoInt processor.

(** Whatever the arguments, the delay is capped by [maxBackoff]. *)
Lemma exponentialBackoff_le_max (dur retry : Z) :
  exponentialBackoff dur retry <= maxBackoff.
Proof.
  unfold exponentialBackoff.
  destruct (shl64 dur (uint64 (retry - 1)) >? maxBackoff) eqn:E; lia.
Qed.

(** The shift is a multiplication as long as the product is an [int64]. *)
Lemma shl64_exact (dur retry : Z) :
  1 <= retry ->
  in_int64 (dur * 2 ^ (retry - 1)) ->
  shl64 dur (uint64 (retry - 1)) = dur * 2 ^ (retry - 1).
Proof.
  intros Hr Hin. unfold shl64.
  destruct (Z.eq_dec dur 0) as [-> | Hd].
  - rewrite Z.shiftl_0_l. destruct (64 <=? _); reflexivity.
  - assert (Hs : retry - 1 < 64).
    { destruct (Z_lt_ge_dec (retry - 1) 64) as [? | Hge]; [assumption | exfalso].
      assert (2 ^ 64 <= 2 ^ (retry - 1)) by (apply Z.pow_le_mono_r; lia).
      unfold in_int64, MinInt64, MaxInt64 in Hin. nia. }
    assert (Hu : uint64 (retry - 1) = retry - 1).
    { unfold uint64, uwrap. apply Z.mod_small. lia. }
    rewrite Hu. destruct (64 <=? retry - 1) eqn:E; [lia |].
    rewrite Z.shiftl_mul_pow2 by lia. apply int64_id. assumption.
Qed.

(** Below the cap the delay doubles with each retry. *)
Lemma exponentialBackoff_exact (dur retry : Z) :
  1 <= retry ->
  MinInt64 <= dur * 2 ^ (retry - 1) <= maxBackoff ->
  exponentialBackoff dur retry = dur * 2 ^ (retry - 1).
Proof.
  intros Hr Hb. unfold exponentialBackoff.
  rewrite shl64_exact; [| assumption |].
  - destruct (_ >? maxBackoff) eqn:E; lia.
  - unfold in_int64, MaxInt64. unfold maxBackoff in Hb.
    change (12 * time.Hour) with 43200000000000 in Hb. lia.
Qed.

(** Above the cap, and while the product still is an [int64], the delay is
    the cap. *)
Lemma exponentialBackoff_clamped (dur retry : Z) :
  1 <= retry ->
  maxBackoff < dur * 2 ^ (retry - 1) <= MaxInt64 ->
  exponentialBackoff dur retry = maxBackoff.
Proof.
  intros Hr Hb. unfold exponentialBackoff.
  rewrite shl64_exact; [| assumption |].
  - destruct (_ >? maxBackoff) eqn:E; lia.
  - unfold in_int64, MinInt64. unfold maxBackoff in Hb.
    change (12 * time.Hour) with 43200000000000 in Hb. lia.
Qed.

(** C8.  With [min = 1s] and [retry = 35] the product [min * 2^34] is far
    above twelve hours, yet the 64-bit shift wraps to a negative duration,
    which the comparison with [maxBackoff] lets through: the result is
    neither the product nor twelve hours. *)
Theorem exponentialBackoff_wraps :
  maxBackoff < time.Second * 2 ^ (35 - 1) /\
  exponentialBackoff time.Second 35 = -1266874889709551616 /\
  exponentialBackoff time.Second 35 <> maxBackoff.
Proof. repeat split; try reflexivity. vm_compute. discriminate. Qed.

End Backoff.

(** ** Config roulette *)

Section Roulette.

Import GoInt taskq Samples.

(** C2.  A config that sits at the worker maximum, a non-empty queue and
    free resources: [Select] returns fifteen workers where ten is the
    configured maximum.  [withMoreFetchers] compares with its maximum
    before it steps; [withMoreWorkers] steps without comparing. *)
Theorem Select_exceeds_MaxNumWorker :
  let cfg := NewConsumerConfig 1 10 in
  within_bounds (opt roulette0) cfg /\
  NumWorker (snd (Select true true roulette0 cfg false)) = 15 /\
  ~ within_bounds (opt roulette0) (snd (Select true true roulette0 cfg false)).
Proof.
  cbv zeta. split; [| split].
  - unfold within_bounds. simpl. lia.
  - reflexivity.
  - unfold within_bounds. simpl.
    change (int32 (10 + 5)) with 15. lia.
Qed.

(** The fetcher count, in contrast, stays within its bounds. *)
Lemma Select_NumFetcher_bounded (free1 free2 queueEmpty : bool)
      (r : configRoulette) (cfg : consumerConfig) :
  MaxNumFetcher (opt r) < 2 ^ 31 ->
  - 2 ^ 31 <= NumFetcher cfg ->
  MinNumFetcher (opt r) <= NumFetcher cfg <= MaxNumFetcher (opt r) ->
  MinNumFetcher (opt r)
    <= NumFetcher (snd (Select free1 free2 r cfg queueEmpty))
    <= MaxNumFetcher (opt r).
Proof.
  intros Hmax Hmin Hb.
  unfold Select, incrementConfig, withMoreFetchers, withMoreWorkers.
  destruct free1, free2, queueEmpty; simpl;
    try (destruct (NumFetcher cfg >=? MaxNumFetcher (opt r)) eqn:E; simpl);
    try rewrite int32_id; lia.
Qed.

(** Each call takes one +5 step on the workers whenever resources are free
    and the queue is not empty, whatever the configured maximum. *)
Lemma Select_NumWorker_step (free2 : bool) (r : configRoulette) (cfg : consumerConfig) :
  NumWorker (snd (Select true free2 r cfg false)) = int32 (NumWorker cfg + 5).
Proof.
  unfold Select, incrementConfig, withMoreFetchers, withMoreWorkers.
  destruct free2; simpl; [| reflexivity].
  destruct (NumFetcher cfg >=? MaxNumFetcher (opt r)); reflexivity.
Qed.

End Roulette.

(** ** Perf profile *)

Section PerfProfile.

Import GoInt taskq.

(** C7.  [Update] after a [Reset] at clock reading [t0] that recorded
    [processed0] and [retries0]: with the deltas
    [dp = processed1 - processed0] and [dr = retries1 - retries0],
    [tps] is [dp] divided by the milliseconds elapsed since [t0],
    [errorRate] is [dr / (dp + dr)] when [dp + dr > 0] and zero otherwise
    (all in [float64]), the stored timing is the argument, and the values
    recorded by [Reset] stay as they are. *)
Theorem Update_after_Reset (p0 : perfProfile)
        (t0 t1 processed0 retries0 processed1 retries1 timing1 : Z) :
  in_int64 (t1 - t0) ->
  in_int64 (processed1 - processed0) ->
  in_int64 (retries1 - retries0) ->
  in_int64 ((processed1 - processed0) + (retries1 - retries0)) ->
  let dp := processed1 - processed0 in
  let dr := retries1 - retries0 in
  let elapsed_ms :=
    PrimFloat.div (float64_of_int (t1 - t0)) (float64_of_int time.Millisecond) in
  let p := Update t1 (Reset t0 p0 processed0 retries0) processed1 retries1 timing1 in
  tps p = PrimFloat.div (float64_of_int dp) elapsed_ms /\
  errorRate p =
    (if 0 <? dp + dr
     then PrimFloat.div (float64_of_int dr) (float64_of_int (dp + dr))
     else 0%float) /\
  timing p = timing1 /\
  start p = t0 /\ processed p = processed0 /\ retries p = retries0.
Proof.
  intros Ht Hp Hr Htot. cbv zeta.
  unfold Update, Reset; cbn [start processed retries timing tps errorRate].
  rewrite (time_sub_id t1 t0 Ht).
  rewrite (int64_id _ Hp), (int64_id _ Hr), (int64_id _ Htot).
  rewrite Z.gtb_ltb. repeat split; reflexivity.
Qed.

(** Five hundred successes and five hundred retries in one second. *)
Lemma Update_after_Reset_witness :
  let p := Update 1000000000 (Reset 0 zeroProfile 100 20) 600 520 7 in
  PrimFloat.eqb (tps p) 0.5%float = true /\
  PrimFloat.eqb (errorRate p) 0.5%float = true /\
  timing p = 7.
Proof.
  pose proof (Update_after_Reset zeroProfile 0 1000000000 100 20 600 520 7) as H.
  cbv zeta in *.
  destruct H as (Ht & He & Hm & _);
    [unfold in_int64, MinInt64, MaxInt64; lia ..|].
  rewrite Ht, He, Hm. vm_compute. repeat split; reflexivity.
Defined.

End PerfProfile.

(** ** Processor: tactics and basic facts *)

(** Unfolds the monad and the primitive state accesses. *)
Ltac run_step :=
  cbv [mbind mret processor.M_bind processor.M_ret
       processor.getProc processor.getEnv processor.putProc processor.putEnv
       processor.emit processor.panic processor.pending
       processor.LoadUint32 processor.StoreUint32 processor.AddUint32
       processor.CompareAndSwapUint32
       processor.wgDone processor.wgAdd processor.workersWGAdd
       processor.nextLock processor.nextWake processor.nextReserve processor.nextDrain
       processor.nextExit];
  cbn [processor.proc processor.env processor.trace negb andb orb
       processor.q processor.opt processor.redis processor.handler
       processor.fallbackHandler processor.wg processor.ch processor.workersWG
       processor.stopWorkers processor.workerChans processor.workerLocks
       processor.ctr processor.strays
       processor.set_ctr processor.set_wg processor.set_ch processor.set_workersWG
       processor.set_stopWorkers processor.set_workerChans processor.set_strays].

Ltac run := repeat progress run_step.

(** Reads a counter through the updates made to it. *)
Ltac counters := cbn [processor.upd processor.counter_eqb].

(** Case analysis on the innermost scrutinee, as long as there is one. *)
Ltac crunch :=
  repeat (run;
          match goal with
          | |- context [match ?x with _ => _ end] =>
              lazymatch x with
              | context [match _ with _ => _ end] => fail
              | _ => destruct x eqn:?
              end
          end).

Section ProcessorBasics.

Import GoInt processor Runs.

Lemma upd_same (c : counter) (v : Z) (f : counter -> Z) : upd c v f c = v.
Proof. unfold upd. destruct c; reflexivity. Qed.

Lemma upd_other (c c' : counter) (v : Z) (f : counter -> Z) :
  c <> c' -> upd c v f c' = f c'.
Proof. intros H. unfold upd. destruct c, c'; simpl; congruence. Qed.

Lemma world_eta (w : World) :
  {| proc := proc w; env := env w; trace := trace w |} = w.
Proof. destruct w; reflexivity. Qed.

Lemma spawnWorkers_run (n : nat) (i : Z) (w : World) :
  spawnWorkers n i w =
  Ok tt {| proc := proc w; env := env w; trace := trace w ++ launched n i |}.
Proof.
  revert i w. induction n as [| n IH]; intros i w; simpl.
  - rewrite app_nil_r, world_eta. reflexivity.
  - run. rewrite IH. simpl. rewrite <- app_assoc. reflexivity.
Qed.

End ProcessorBasics.

(** ** Lifecycle *)

Section Lifecycle.

Import GoInt processor Runs Samples.

Lemma stopWorkersTimeout_stopped (d : Z) (w : World) :
  ctr (proc w) Started <> 1 -> stopWorkersTimeout d w = Ok None w.
Proof.
  intros H. unfold stopWorkersTimeout. run.
  destruct (ctr (proc w) Started =? 1) eqn:E; [lia |].
  simpl. destruct w; reflexivity.
Qed.

Lemma Start_started (w : World) :
  ctr (proc w) Started <> 0 -> Start w = Ok None w.
Proof.
  intros H. unfold Start, startWorkers. run.
  destruct (ctr (proc w) Started =? 0) eqn:E; [lia |].
  simpl. destruct w; reflexivity.
Qed.

Lemma Start_sets_started (w w1 : World) (r : option error) :
  Start w = Ok r w1 -> ctr (proc w1) Started <> 0.
Proof.
  unfold Start, startWorkers. run.
  destruct (ctr (proc w) Started =? 0) eqn:E; simpl.
  - destruct (_ <? 0); [discriminate |].
    rewrite spawnWorkers_run. simpl.
    destruct (_ <? 0); [discriminate |].
    intros [= _ <-]. simpl. discriminate.
  - intros [= _ <-]. simpl. lia.
Qed.

Lemma stopWorkersTimeout_clears_started (d : Z) (w w1 : World) (r : option error) :
  stopWorkersTimeout d w = Ok r w1 -> ctr (proc w1) Started <> 1.
Proof.
  unfold stopWorkersTimeout, closeStopWorkers, waitWorkers. run.
  destruct (ctr (proc w) Started =? 1) eqn:E; simpl.
  - destruct (drains (env w)) as [| [] ds]; simpl; try discriminate.
    + destruct (stopWorkers (proc w)); simpl; try discriminate.
      destruct (strays (proc w) =? 0); simpl; try discriminate.
      destruct (exits (env w)) as [| [] xs]; simpl; try discriminate.
      intros [= _ <-]. simpl. discriminate.
    + intros [= _ <-]. simpl. discriminate.
  - intros [= _ <-]. simpl. lia.
Qed.

(** C9.  [Start] on a started processor and [Stop]/[StopTimeout] on a
    stopped one return nil and leave the processor, the environment and the
    trace as they were: nothing is launched, closed or waited for.  In
    particular the second of two calls in a row is such a no-op. *)
Theorem Start_Stop_idempotent (w : World) (d : Z) :
  (ctr (proc w) Started = 1 -> Start w = Ok None w) /\
  (ctr (proc w) Started = 0 ->
     Stop w = Ok None w /\ StopTimeout d w = Ok None w) /\
  (forall r w1, Start w = Ok r w1 -> Start w1 = Ok None w1) /\
  (forall r w1, StopTimeout d w = Ok r w1 ->
     Stop w1 = Ok None w1 /\ forall d', StopTimeout d' w1 = Ok None w1).
Proof.
  repeat split.
  - intros H. apply Start_started. lia.
  - apply stopWorkersTimeout_stopped. lia.
  - apply stopWorkersTimeout_stopped. lia.
  - intros r w1 H. apply Start_started. eapply Start_sets_started; eassumption.
  - apply stopWorkersTimeout_stopped.
    eapply stopWorkersTimeout_clears_started; eassumption.
  - intros d'. apply stopWorkersTimeout_stopped.
    eapply stopWorkersTimeout_clears_started; eassumption.
Qed.

(** On a running processor a second [Start] adds nothing to the five
    launches of the first; on a fresh one [Stop] does nothing. *)
Lemma Start_Stop_idempotent_witness :
  Start (running options0 quiet) = Ok None (running options0 quiet) /\
  Stop (fresh options0 quiet) = Ok None (fresh options0 quiet).
Proof.
  split.
  - apply (Start_Stop_idempotent (running options0 quiet) 0). reflexivity.
  - apply (Start_Stop_idempotent (fresh options0 quiet) 0). reflexivity.
Defined.

(** C3, as the code has it.  When the timer of [StopTimeout d] fires before
    the in-flight work drained, the call returns the error that names [d]
    and leaves [stopWorkers] open: the workers keep running.  The started
    flag, however, was cleared before the wait, so the processor now counts
    as stopped and every later [Stop] or [StopTimeout] returns nil without
    closing [stopWorkers] or waiting for anything. *)
Theorem StopTimeout_deadline (w : World) (d : Z) (ds : list bool) :
  ctr (proc w) Started = 1 ->
  drains (env w) = false :: ds ->
  exists w1,
    StopTimeout d w = Ok (Some (ErrWorkersDidNotStop d)) w1 /\
    stopWorkers (proc w1) = stopWorkers (proc w) /\
    appended w w1 [Go GWaitInFlight] /\
    ctr (proc w1) Started = 0 /\
    stopped w1 = Ok true w1 /\
    Stop w1 = Ok None w1 /\
    forall d', StopTimeout d' w1 = Ok None w1.
Proof.
  intros Hs Hd. unfold StopTimeout at 1, stopWorkersTimeout. run.
  rewrite Hs, Z.eqb_refl. run. rewrite Hd. run. eexists. split; [reflexivity |].
  repeat split; intros; try apply stopWorkersTimeout_stopped; simpl; discriminate.
Qed.

(** A running processor whose work needs longer than 100 ms. *)
Lemma StopTimeout_deadline_witness :
  exists w1,
    StopTimeout (100 * time.Millisecond) (running options1 (set_drains [false; true] quiet))
      = Ok (Some (ErrWorkersDidNotStop (100 * time.Millisecond))) w1 /\
    stopWorkers (proc w1) = ChanOpen /\
    Stop w1 = Ok None w1.
Proof.
  destruct (StopTimeout_deadline
              (running options1 (set_drains [false; true] quiet))
              (100 * time.Millisecond) [true] eq_refl eq_refl)
    as (w1 & H1 & H2 & _ & _ & _ & H3 & _).
  exists w1. repeat split; assumption.
Defined.

(** C3, as the claim has it, fails: after a [StopTimeout] that ran into its
    deadline the processor is not running any more (its started flag is 0),
    and the retry, for which the work has drained, neither closes
    [stopWorkers] nor waits for workers or batcher. *)
Lemma StopTimeout_retry_is_noop :
  let w0 := running options1 (set_drains [false; true] quiet) in
  let w1 := world_of (StopTimeout (100 * time.Millisecond) w0) in
  StopTimeout (100 * time.Millisecond) w0
    = Ok (Some (ErrWorkersDidNotStop (100 * time.Millisecond))) w1 /\
  ctr (proc w1) Started = 0 /\
  Stop w1 = Ok None w1 /\
  stopWorkers (proc (world_of (Stop w1))) = ChanOpen /\
  ~ In CloseStop (trace (world_of (Stop w1))) /\
  ~ In WaitWorkers (trace (world_of (Stop w1))) /\
  drains (env (world_of (Stop w1))) = [true].
Proof.
  cbv zeta.
  do 4 (split; [vm_compute; reflexivity |]).
  do 2 (split; [vm_compute; intros H; decompose [or] H; discriminate || assumption |]).
  vm_compute. reflexivity.
Qed.

End Lifecycle.

(** ** Release delay *)

Section ReleaseBackoff.

Import GoInt processor Runs Samples.

(** C5.  The delay of a release.  A reason with a [Delay()] method decides
    it; a delay of more than a minute is also published to the pause
    controller, [delaySec] receiving the whole seconds (as a [uint32]) and
    [delayCount] one more.  Without such a reason a positive [msg.Delay] is
    the delay, and otherwise the exponential backoff of [MinBackoff] at the
    message's reserved count.  Nothing else changes. *)
Theorem releaseBackoff_precedence (msg : Message) (reason : option error) (w : World) :
  (forall e d, reason = Some e -> asDelayer e = Some d ->
     exists w',
       releaseBackoff msg reason w = Ok d w' /\
       trace w' = trace w /\ env w' = env w /\
       if d >? time.Minute
       then (exists f, proc w' = set_ctr f (proc w)) /\
            ctr (proc w') DelaySec = uint32 (Z.quot d time.Second) /\
            (Z.quot d time.Second < 2 ^ 32 ->
             ctr (proc w') DelaySec = Z.quot d time.Second) /\
            ctr (proc w') DelayCount = incr32 (ctr (proc w) DelayCount) /\
            (forall c, c <> DelaySec -> c <> DelayCount ->
                       ctr (proc w') c = ctr (proc w) c)
       else w' = w) /\
  ((forall e, reason = Some e -> asDelayer e = None) ->
     releaseBackoff msg reason w =
       Ok (if Delay msg >? 0 then Delay msg
           else exponentialBackoff (MinBackoff (opt (proc w))) (ReservedCount msg)) w).
Proof.
  split.
  - intros e d -> Hd. unfold releaseBackoff. simpl. rewrite Hd.
    destruct (d >? time.Minute) eqn:E.
    + eexists. split; [reflexivity |]. run.
      split; [reflexivity |]. split; [reflexivity |].
      split; [eexists; reflexivity |].
      cbn [ctr set_ctr].
      rewrite (upd_other DelayCount DelaySec) by discriminate.
      rewrite !upd_same.
      split; [reflexivity |].
      split.
      { intros Hlt. apply uint32_id. split; [| assumption].
        apply Z.quot_pos; [| reflexivity].
        apply Z.gtb_lt in E. unfold time.Minute in E.
        assert (0 < 60 * time.Second) by reflexivity. lia. }
      split; [rewrite (upd_other DelaySec DelayCount) by discriminate; reflexivity |].
      intros c H1 H2. rewrite !upd_other by congruence. reflexivity.
    + exists w. auto.
  - intros H. unfold releaseBackoff.
    destruct reason as [e |]; simpl; [rewrite (H e eq_refl) |];
      destruct (Delay msg >? 0); run; rewrite ?world_eta; reflexivity.
Qed.

(** A rate-limit error that asks for two minutes, and a plain one on a
    message reserved for the third time. *)
Lemma releaseBackoff_precedence_witness :
  (exists w',
     releaseBackoff msg1 (Some (ErrOther "calm down" (Some (2 * time.Minute))))
                    (running options0 quiet) = Ok (2 * time.Minute) w' /\
     ctr (proc w') DelaySec = 120 /\ ctr (proc w') DelayCount = 1) /\
  releaseBackoff {| Id := 2; Delay := 0; ReservedCount := 3 |} (Some boom)
                 (running options0 quiet)
    = Ok (4 * time.Millisecond) (running options0 quiet).
Proof.
  pose proof (releaseBackoff_precedence msg1
                (Some (ErrOther "calm down" (Some (2 * time.Minute))))
                (running options0 quiet)) as [H1 _].
  destruct (H1 _ (2 * time.Minute) eq_refl eq_refl) as (w' & Hr & _ & _ & Hc).
  change (2 * time.Minute >? time.Minute) with true in Hc. cbv iota in Hc.
  destruct Hc as (_ & _ & Hs & Hn & _).
  split.
  - exists w'. split; [exact Hr |]. split.
    + rewrite Hs; reflexivity.
    + rewrite Hn. reflexivity.
  - pose proof (releaseBackoff_precedence
                  {| Id := 2; Delay := 0; ReservedCount := 3 |} (Some boom)
                  (running options0 quiet)) as [_ H2].
    rewrite H2.
    + reflexivity.
    + intros e [= <-]. reflexivity.
Defined.

End ReleaseBackoff.

(** ** Slot coordinator *)

Section SlotCoordinator.

Import GoInt processor Runs Samples.

Lemma lock_frame_refl (p : Processor) : lock_frame p p.
Proof. unfold lock_frame. tauto. Qed.

Lemma lock_frame_trans (p1 p2 p3 : Processor) :
  lock_frame p1 p2 -> lock_frame p2 p3 -> lock_frame p1 p3.
Proof. unfold lock_frame. intuition congruence. Qed.

Lemma lock_frame_workerChans (l : list bool) (p : Processor) :
  length l = length (workerChans p) -> lock_frame p (set_workerChans l p).
Proof. intros H. unfold lock_frame. simpl. tauto. Qed.

(** A wait on an empty wake channel ends as the environment says. *)
Lemma waitSlot_empty (slot : nat) (w : World) (x : wake) (xs : list wake) :
  workerChans (proc w) !! slot <> Some true ->
  wakes (env w) = x :: xs ->
  waitSlot slot w =
  Ok tt {| proc := proc w; env := set_wakes xs (env w);
           trace := trace w ++ [Wait slot lockTimeout x] |}.
Proof.
  intros Hc Hw. unfold waitSlot. run.
  destruct (workerChans (proc w) !! slot) as [[|] |] eqn:E;
    try congruence; run; rewrite Hw; run; reflexivity.
Qed.

(** A wait either returns, having written at most the slot's channel, or
    is cut where the description of the environment ends. *)
Lemma waitSlot_inv (slot : nat) (w : World) :
  (exists w1 x, waitSlot slot w = Ok tt w1 /\
                lock_frame (proc w) (proc w1) /\
                trace w1 = trace w ++ [Wait slot lockTimeout x]) \/
  waitSlot slot w = Pending w.
Proof.
  unfold waitSlot. run.
  destruct (workerChans (proc w) !! slot) as [[|] |] eqn:E; run.
  - left. eexists _, Token. split; [reflexivity |]. split; [| reflexivity].
    apply lock_frame_workerChans. apply length_insert.
  - destruct (wakes (env w)) as [| x xs]; run.
    + right. rewrite ?world_eta. reflexivity.
    + left. eexists _, x. split; [reflexivity |].
      split; [apply lock_frame_refl | reflexivity].
  - destruct (wakes (env w)) as [| x xs]; run.
    + right. rewrite ?world_eta. reflexivity.
    + left. eexists _, x. split; [reflexivity |].
      split; [apply lock_frame_refl | reflexivity].
Qed.

(** The polling loop against a lock that is held [length ws] times and then
    answers [r]. *)
Lemma lockWorker_loop_poll (slot : nat) (ws : list wake) :
  forall (fuel : nat) (w : World) (r : lock_reply)
         (rest : list lock_reply) (ws' : list wake),
    (length ws < fuel)%nat ->
    lockReplies (env w) = repeat Busy (length ws) ++ r :: rest ->
    r <> Busy ->
    wakes (env w) = ws ++ ws' ->
    workerChans (proc w) !! slot <> Some true ->
    lockWorker_loop fuel slot w =
    Ok tt {| proc := proc w;
             env := set_wakes ws' (set_lockReplies rest (env w));
             trace := trace w ++ rounds slot ws ++ LockCall slot r :: lockLog r |}.
Proof.
  induction ws as [| x ws IH]; intros fuel w r rest ws' Hf Hl Hr Hw Hc;
    (destruct fuel as [| fuel]; [simpl in Hf; lia |]); simpl in Hl, Hw |- *.
  - run. rewrite Hl. run.
    destruct r as [| | e]; try congruence; run;
      unfold set_wakes, set_lockReplies; simpl; rewrite <- Hw;
      rewrite <- ?app_assoc; reflexivity.
  - run. rewrite Hl. run.
    rewrite (waitSlot_empty slot _ x (ws ++ ws')); [| exact Hc | exact Hw].
    run. erewrite IH; try eassumption; simpl in *.
    + unfold set_wakes, set_lockReplies; simpl.
      rewrite <- !app_assoc. reflexivity.
    + lia.
    + reflexivity.
    + reflexivity.
Qed.

(** Whatever the environment does, the polling loop on [slot] never
    panics, touches nothing but that slot's lock and channel, and returns
    only after a Lock() call that answered [Acquired] or an error. *)
Lemma lockWorker_loop_inv (slot : nat) (fuel : nat) :
  forall w : World,
    match lockWorker_loop fuel slot w with
    | Ok _ w' =>
        lock_frame (proc w) (proc w') /\
        exists pre r, r <> Busy /\ Forall (on_slot slot) pre /\
                      appended w w' (pre ++ LockCall slot r :: lockLog r)
    | Pending w' =>
        lock_frame (proc w) (proc w') /\
        exists evs, Forall (on_slot slot) evs /\ appended w w' evs
    | Panic _ _ => False
    end.
Proof.
  induction fuel as [| fuel IH]; intros w; simpl.
  - run. split; [apply lock_frame_refl |].
    exists []. split; [constructor |]. unfold appended. simpl.
    rewrite app_nil_r. reflexivity.
  - run. destruct (lockReplies (env w)) as [| r rs]; run.
    + split; [apply lock_frame_refl |].
      exists []. split; [constructor |]. unfold appended. simpl.
      rewrite app_nil_r. reflexivity.
    + destruct r as [| | e]; run.
      * split; [apply lock_frame_refl |].
        exists [], Acquired.
        split; [discriminate |]. split; [constructor |]. reflexivity.
      * match goal with
        | |- context [waitSlot slot ?w1] =>
            destruct (waitSlot_inv slot w1) as [(w2 & x & Hw & Hfr & Htr) | Hw];
            rewrite Hw; clear Hw
        end.
        -- specialize (IH w2). simpl in Hfr, Htr.
           destruct (lockWorker_loop fuel slot w2) as [[] w3 | why w3 | w3];
             [| exact IH |].
           ++ destruct IH as (Hfr' & pre & r & Hr & Hpre & Happ).
              split; [eapply lock_frame_trans; eassumption |].
              exists (LockCall slot Busy :: Wait slot lockTimeout x :: pre), r.
              split; [exact Hr |]. split.
              ** repeat constructor; assumption.
              ** unfold appended in *. rewrite Happ, Htr.
                 rewrite <- !app_assoc. reflexivity.
           ++ destruct IH as (Hfr' & evs & Hevs & Happ).
              split; [eapply lock_frame_trans; eassumption |].
              exists (LockCall slot Busy :: Wait slot lockTimeout x :: evs).
              split.
              ** repeat constructor; assumption.
              ** unfold appended in *. rewrite Happ, Htr.
                 rewrite <- !app_assoc. reflexivity.
        -- split; [apply lock_frame_refl |].
           exists [LockCall slot Busy]. split.
           ++ repeat constructor.
           ++ reflexivity.
      * split; [apply lock_frame_refl |].
        exists [], (Failed e).
        split; [discriminate |]. split; [constructor |].
        unfold appended. simpl. rewrite <- app_assoc. reflexivity.
Qed.

End SlotCoordinator.

(** ** Processing one message *)

Section ProcessOne.

Import GoInt processor Runs Samples.

Lemma process_due (workerId : Z) (msg : Message) (w : World) :
  Delay msg <= 0 ->
  process workerId msg w =
  ((if (workerId >=? 0) && (MaxWorkers (opt (proc w)) >? 0)
    then lockWorker workerId else mret tt);;
   process_tail (proc w) workerId msg) w.
Proof.
  intros H. unfold process, process_tail.
  destruct (Delay msg >? 0) eqn:E; [lia |]. reflexivity.
Qed.

Lemma process_tail_failure (p : Processor) (workerId : Z) (msg : Message)
      (w1 w' : World) (err : error) (r : option error) :
  failure (handler p msg) = Some err ->
  process_tail p workerId msg w1 = Ok r w' ->
  r = Some err /\
  exists evs,
    appended w1 w' (Handle msg :: evs) /\
    (ReservedCount msg < RetryLimit (opt p) ->
       ctr (proc w') Retries = incr32 (ctr (proc w1) Retries) /\
       ctr (proc w') Fails = ctr (proc w1) Fails /\
       (exists d, In (ReleaseCall msg d) evs) /\
       (forall m, ~ In (BatchAdd m) evs)) /\
    (RetryLimit (opt p) <= ReservedCount msg ->
       ctr (proc w') Fails = incr32 (ctr (proc w1) Fails) /\
       ctr (proc w') Retries = ctr (proc w1) Retries /\
       In (BatchAdd msg) evs /\
       (forall m d, ~ In (ReleaseCall m d) evs)).
Proof.
  intros Hf. unfold process_tail. rewrite Hf.
  unfold unlockWorker, release, releaseBackoff, delete, resetPause, updateAvgDuration.
  crunch; try discriminate.
  all: intros [= <- <-]; (split; [reflexivity |]).
  all: eexists; (split; [unfold appended; cbn [trace]; rewrite <- ?app_assoc; reflexivity |]).
  all: cbn [proc]; counters.
  all: apply Z.ltb_lt in Heqb0 || apply Z.ltb_ge in Heqb0.
  all: split; intros Hlim; try lia.
  all: (split; [reflexivity |]); (split; [reflexivity |]).
  all: split;
    [ first [ eexists; cbn [app In]; repeat first [left; reflexivity | right]
            | cbn [app In]; repeat first [left; reflexivity | right] ]
    | intros; cbn [app In]; intuition discriminate ].
Qed.

Lemma on_slot_lockish (slot : nat) (evs : list event) :
  Forall (on_slot slot) evs -> Forall lockish evs.
Proof.
  intros H. eapply Forall_impl; [exact H |].
  intros [] H'; simpl in *; try contradiction; exact I.
Qed.

Lemma lock_events_lockish (slot : nat) (levs : list event) :
  lock_events slot levs -> Forall lockish levs.
Proof.
  intros (pre & r & _ & Hpre & ->). apply Forall_app. split.
  - eapply on_slot_lockish; eassumption.
  - destruct r; repeat constructor.
Qed.

Lemma index_Some {A} (s : list A) (i : Z) :
  0 <= i < Z.of_nat (length s) -> exists x, index s i = Some x.
Proof.
  intros H. unfold index. destruct (i <? 0) eqn:E; [lia |].
  destruct (lookup_lt_is_Some_2 s (Z.to_nat i)) as [x Hx]; [lia |].
  exists x. exact Hx.
Qed.

Lemma index_None {A} (s : list A) (i : Z) :
  Z.of_nat (length s) <= i -> index s i = None.
Proof.
  intros H. unfold index. destruct (i <? 0) eqn:E; [reflexivity |].
  apply lookup_ge_None_2. lia.
Qed.

(** [lockWorker]: a slot outside the slices is a panic before any call;
    otherwise it is the polling loop on that slot. *)
Lemma lockWorker_inv (id : Z) (w : World) :
  match lockWorker id w with
  | Ok _ w' =>
      lock_frame (proc w) (proc w') /\
      exists levs, lock_events (Z.to_nat id) levs /\ appended w w' levs
  | Pending w' =>
      lock_frame (proc w) (proc w') /\
      exists evs, Forall (on_slot (Z.to_nat id)) evs /\ appended w w' evs
  | Panic why w' =>
      why = "index out of range"%string /\ w' = w /\
      (index (workerChans (proc w)) id = None \/
       index (workerLocks (proc w)) id = None)
  end.
Proof.
  unfold lockWorker. run.
  destruct (index (workerChans (proc w)) id) eqn:Ec;
    [destruct (index (workerLocks (proc w)) id) eqn:El |]; run.
  - pose proof (lockWorker_loop_inv (Z.to_nat id)
                  (S (length (lockReplies (env w)))) w) as H.
    destruct (lockWorker_loop _ _ w) as [[] w' | why w' | w'].
    + destruct H as (Hfr & pre & r & Hr & Hpre & Happ).
      split; [exact Hfr |]. exists (pre ++ LockCall (Z.to_nat id) r :: lockLog r).
      split; [| exact Happ]. exists pre, r. auto.
    + contradiction.
    + exact H.
  - auto.
  - auto.
Qed.

(** With slot locking on, the handler's call is followed by the unlock of
    the slot with the worker's index; nothing after it touches a slot. *)
Lemma process_tail_trace (p : Processor) (workerId : Z) (msg : Message)
      (w1 : World) (l : Lock) :
  (workerId >=? 0) && (MaxWorkers (opt p) >? 0) = true ->
  index (workerLocks (proc w1)) workerId = Some l ->
  match process_tail p workerId msg w1 with
  | Ok _ w' | Panic _ w' =>
      exists post, Forall off_slots post /\
                   appended w1 w' (Handle msg :: UnlockCall (Z.to_nat workerId) :: post)
  | Pending _ => False
  end.
Proof.
  intros Hc Hl. unfold process_tail. rewrite Hc.
  unfold unlockWorker, release, releaseBackoff, delete, resetPause, updateAvgDuration.
  run. rewrite Hl. crunch.
  all: eexists; split;
    [| unfold appended; cbn [trace]; rewrite <- ?app_assoc; reflexivity ].
  all: cbn [app]; repeat constructor.
Qed.

(** The slot phase returns when the slot is ready. *)
Lemma lock_phase_returns (workerId : Z) (w : World) :
  slot_ready workerId w ->
  exists w1,
    (if (workerId >=? 0) && (MaxWorkers (opt (proc w)) >? 0)
     then lockWorker workerId else mret tt) w = Ok tt w1.
Proof.
  intros [Hoff | (Hid & [Hchans Hlocks] & Hc & ws & ws' & r & rest & Hr & Hl & Hw)].
  - rewrite Hoff. exists w. reflexivity.
  - assert (Hon : (workerId >=? 0) && (MaxWorkers (opt (proc w)) >? 0) = true).
    { apply andb_true_intro. split; [apply Z.geb_le | apply Z.gtb_lt]; lia. }
    rewrite Hon. unfold lockWorker. run.
    destruct (index_Some (workerChans (proc w)) workerId) as [x Hx]; [lia |].
    destruct (index_Some (workerLocks (proc w)) workerId) as [l Hlk]; [lia |].
    rewrite Hx, Hlk. run.
    erewrite lockWorker_loop_poll; try eassumption.
    + eexists. reflexivity.
    + rewrite Hl, length_app, repeat_length. simpl. lia.
    + rewrite Hc. discriminate.
Qed.

(** From the call of the handler on, [process] returns what the handler
    returned, provided the WaitGroup counts the message it releases. *)
Lemma process_tail_returns (p : Processor) (workerId : Z) (msg : Message)
      (w1 : World) :
  ((workerId >=? 0) && (MaxWorkers (opt p) >? 0) = true ->
     exists l, index (workerLocks (proc w1)) workerId = Some l) ->
  (forall err, failure (handler p msg) = Some err ->
               ReservedCount msg < RetryLimit (opt p) -> 1 <= wg (proc w1)) ->
  exists w', process_tail p workerId msg w1 = Ok (failure (handler p msg)) w'.
Proof.
  intros Hl Hwg.
  unfold process_tail, unlockWorker, release, releaseBackoff, delete, resetPause,
    updateAvgDuration.
  crunch.
  all: try (eexists; reflexivity).
  all: exfalso.
  all: try (destruct Hl as [? Hl]; [reflexivity | discriminate]).
  all: match goal with
       | Hlim : (ReservedCount _ <? _) = true, Hn : (_ + -1 <? 0) = true |- _ =>
           apply Z.ltb_lt in Hlim, Hn; specialize (Hwg _ eq_refl Hlim); lia
       end.
Qed.

(** C4.  A due message whose handler fails with [err], given to [process]
    when its slot is ready: the call returns, and returns [err].  Below the
    retry limit [retries] goes up by one, [fails] stays, and the message is
    released (the WaitGroup counts it) and not handed to the batcher; at or
    above the limit [fails] goes up by one, [retries] stays, and the message
    is handed to the batcher for deletion and not released.  With a retry
    limit of zero that is the case of every message (its reserved count is
    not negative). *)
Theorem process_failure (workerId : Z) (msg : Message) (w : World) (err : error) :
  Delay msg <= 0 ->
  failure (handler (proc w) msg) = Some err ->
  slot_ready workerId w ->
  (ReservedCount msg < RetryLimit (opt (proc w)) -> 1 <= wg (proc w)) ->
  exists w' evs,
    process workerId msg w = Ok (Some err) w' /\
    appended w w' evs /\ In (Handle msg) evs /\
    (ReservedCount msg < RetryLimit (opt (proc w)) ->
       ctr (proc w') Retries = incr32 (ctr (proc w) Retries) /\
       ctr (proc w') Fails = ctr (proc w) Fails /\
       (exists d, In (ReleaseCall msg d) evs) /\
       (forall m, ~ In (BatchAdd m) evs)) /\
    (RetryLimit (opt (proc w)) <= ReservedCount msg ->
       ctr (proc w') Fails = incr32 (ctr (proc w) Fails) /\
       ctr (proc w') Retries = ctr (proc w) Retries /\
       In (BatchAdd msg) evs /\
       (forall m d, ~ In (ReleaseCall m d) evs)) /\
    (RetryLimit (opt (proc w)) = 0 -> 0 <= ReservedCount msg ->
       ctr (proc w') Fails = incr32 (ctr (proc w) Fails) /\
       In (BatchAdd msg) evs /\
       (forall m d, ~ In (ReleaseCall m d) evs)).
Proof.
  intros Hdue Hf Hready Hcount. rewrite (process_due _ _ _ Hdue).
  cbv [mbind M_bind].
  destruct (lock_phase_returns workerId w Hready) as [w1 Hlock].
  pose proof (lockWorker_inv workerId w) as Hinv.
  assert (Hphase : lock_frame (proc w) (proc w1) /\
                   exists levs, Forall lockish levs /\ appended w w1 levs).
  { destruct ((workerId >=? 0) && (MaxWorkers (opt (proc w)) >? 0)).
    - rewrite Hlock in Hinv. destruct Hinv as (Hfr & levs & Hl & Happ).
      split; [exact Hfr |]. exists levs.
      split; [eapply lock_events_lockish; eassumption | exact Happ].
    - injection Hlock as <-. split; [apply lock_frame_refl |].
      exists []. split; [constructor |]. unfold appended. rewrite app_nil_r.
      reflexivity. }
  rewrite Hlock.
  destruct Hphase as (Hfr & levs & Hlevs & Happ).
  assert (Hctr : ctr (proc w1) = ctr (proc w)) by apply Hfr.
  assert (Hwg1 : wg (proc w1) = wg (proc w)) by apply Hfr.
  assert (Hlk1 : workerLocks (proc w1) = workerLocks (proc w)) by apply Hfr.
  destruct (process_tail_returns (proc w) workerId msg w1) as [w' Ht].
  { intros Hon. rewrite Hlk1.
    destruct Hready as [Hoff | (Hid & [_ Hlocks] & _)]; [congruence |].
    apply index_Some. lia. }
  { intros e _ Hlim. rewrite Hwg1. auto. }
  rewrite Hf in Ht.
  destruct (process_tail_failure _ _ _ _ _ _ _ Hf Ht)
    as (_ & evs & Happ' & Hlt & Hge).
  exists w', (levs ++ Handle msg :: evs).
  assert (Hquiet : forall ev, In ev levs -> lockish ev).
  { rewrite Forall_forall in Hlevs. intros ev Hin. apply Hlevs.
    apply list_elem_of_In. exact Hin. }
  split; [exact Ht |].
  split; [| split; [| split; [| split]]].
  - unfold appended in *. rewrite Happ', Happ, <- app_assoc. reflexivity.
  - apply in_or_app. right. left. reflexivity.
  - intros H. destruct (Hlt H) as (H1 & H2 & (d & H3) & H4).
    rewrite H1, H2, Hctr. repeat split.
    + exists d. apply in_or_app. right. right. exact H3.
    + intros m Hin. apply in_app_or in Hin. destruct Hin as [Hin | [Hin | Hin]].
      * apply (Hquiet _ Hin).
      * discriminate.
      * apply (H4 m Hin).
  - intros H. destruct (Hge H) as (H1 & H2 & H3 & H4).
    rewrite H1, H2, Hctr. repeat split.
    + apply in_or_app. right. right. exact H3.
    + intros m d Hin. apply in_app_or in Hin. destruct Hin as [Hin | [Hin | Hin]].
      * apply (Hquiet _ Hin).
      * discriminate.
      * apply (H4 m d Hin).
  - intros H0 Hpos. destruct Hge as (H1 & H2 & H3 & H4); [lia |].
    rewrite H1, Hctr. repeat split.
    + apply in_or_app. right. right. exact H3.
    + intros m d Hin. apply in_app_or in Hin. destruct Hin as [Hin | [Hin | Hin]].
      * apply (Hquiet _ Hin).
      * discriminate.
      * apply (H4 m d Hin).
Qed.

(** Message 1 was reserved once.  Under a retry limit of two, worker 1
    takes its slot and the message is released; under a retry limit of zero,
    on a processor without slot locks, it is handed to the batcher. *)
Lemma process_failure_witness :
  (exists w',
     process 1 msg1 (handed msg1 (running options0 (set_lockReplies [Acquired] quiet)))
       = Ok (Some boom) w' /\
     ctr (proc w') Retries = 1 /\ ctr (proc w') Fails = 0 /\
     (exists d, In (ReleaseCall msg1 d) (trace w')) /\
     (forall m, ~ In (BatchAdd m) (trace w'))) /\
  (exists w',
     process 0 msg1 (handed msg1 (running options1 quiet)) = Ok (Some boom) w' /\
     ctr (proc w') Fails = 1 /\ ctr (proc w') Retries = 0 /\
     In (BatchAdd msg1) (trace w') /\
     (forall m d, ~ In (ReleaseCall m d) (trace w'))).
Proof.
  split.
  - destruct (process_failure 1 msg1
                (handed msg1 (running options0 (set_lockReplies [Acquired] quiet))) boom)
      as (w' & evs & Hrun & Happ & _ & Hlt & _).
    + vm_compute. discriminate.
    + vm_compute. reflexivity.
    + right. split; [vm_compute; split; [discriminate | reflexivity] |].
      split; [split; vm_compute; reflexivity |].
      split; [vm_compute; reflexivity |].
      exists [], [], Acquired, []. split; [discriminate |].
      split; vm_compute; reflexivity.
    + intros _. vm_compute. discriminate.
    + destruct Hlt as (H1 & H2 & H3 & H4); [vm_compute; reflexivity |].
      exists w'. split; [exact Hrun |].
      assert (Ht : trace w' = evs) by (rewrite Happ; reflexivity).
      rewrite Ht, H1, H2. repeat split; try assumption; vm_compute; reflexivity.
  - destruct (process_failure 0 msg1 (handed msg1 (running options1 quiet)) boom)
      as (w' & evs & Hrun & Happ & _ & _ & Hge & _).
    + vm_compute. discriminate.
    + vm_compute. reflexivity.
    + left. vm_compute. reflexivity.
    + vm_compute. discriminate.
    + destruct Hge as (H1 & H2 & H3 & H4); [vm_compute; discriminate |].
      exists w'. split; [exact Hrun |].
      assert (Ht : trace w' = evs) by (rewrite Happ; reflexivity).
      rewrite Ht, H1, H2. repeat split; try assumption; vm_compute; reflexivity.
Defined.

(** C1, as the code has it.  [process] indexes the slot slices with the
    worker's identifier itself, and for a message that is due.  For an
    identifier below [MaxWorkers] that index is [worker_id mod MaxWorkers]:
    the run polls that slot and no other, calls the handler only after a
    Lock() on it answered (acquired, or an error), and unlocks the same slot
    right after the handler; a run cut short is still polling that slot.
    When the slot is ready and the WaitGroup counts the message, the call
    returns. *)
Theorem process_slot_index (workerId : Z) (msg : Message) (w : World) :
  0 <= workerId < MaxWorkers (opt (proc w)) ->
  slots_allocated (proc w) ->
  Delay msg <= 0 ->
  workerId mod MaxWorkers (opt (proc w)) = workerId /\
  match process workerId msg w with
  | Ok _ w' | Panic _ w' =>
      exists levs post,
        lock_events (Z.to_nat workerId) levs /\ Forall off_slots post /\
        appended w w'
          (levs ++ Handle msg :: UnlockCall (Z.to_nat workerId) :: post)
  | Pending w' =>
      exists evs, Forall (on_slot (Z.to_nat workerId)) evs /\ appended w w' evs
  end /\
  (slot_ready workerId w -> 1 <= wg (proc w) ->
   exists r w', process workerId msg w = Ok r w').
Proof.
  intros Hid [Hchans Hlocks] Hdue.
  assert (Hc : (workerId >=? 0) && (MaxWorkers (opt (proc w)) >? 0) = true).
  { apply andb_true_intro. split; [apply Z.geb_le | apply Z.gtb_lt]; lia. }
  split; [apply Z.mod_small; lia |].
  rewrite (process_due _ _ _ Hdue). cbv [mbind M_bind].
  pose proof (lockWorker_inv workerId w) as Hinv.
  split.
  - rewrite Hc.
    destruct (lockWorker workerId w) as [[] w1 | why w1 | w1].
    + destruct Hinv as (Hfr & levs & Hlevs & Happ).
      destruct (index_Some (workerLocks (proc w1)) workerId) as [l Hl].
      { destruct Hfr as (_ & _ & _ & _ & _ & _ & _ & _ & -> & _). lia. }
      pose proof (process_tail_trace (proc w) workerId msg w1 l Hc Hl) as Ht.
      destruct (process_tail (proc w) workerId msg w1) as [r w' | why w' | w'];
        try contradiction;
        destruct Ht as (post & Hpost & Happ');
        exists levs, post; (split; [exact Hlevs |]); (split; [exact Hpost |]);
        unfold appended in *; rewrite Happ', Happ, <- app_assoc; reflexivity.
    + exfalso. destruct Hinv as (_ & _ & [Hn | Hn]);
        [destruct (index_Some (workerChans (proc w)) workerId) as [x Hx]
        | destruct (index_Some (workerLocks (proc w)) workerId) as [x Hx]];
        try lia; congruence.
    + destruct Hinv as (_ & evs & Hevs & Happ). exists evs. auto.
  - intros Hready Hwg.
    destruct (lock_phase_returns workerId w Hready) as [w1 Hlock].
    rewrite Hlock. rewrite Hc in Hlock. rewrite Hlock in Hinv.
    destruct Hinv as (Hfr & _).
    destruct (process_tail_returns (proc w) workerId msg w1) as [w' Ht].
    + intros _. apply index_Some.
      destruct Hfr as (_ & _ & _ & _ & _ & _ & _ & _ & -> & _). lia.
    + intros e _ _. destruct Hfr as (_ & _ & _ & _ & _ & -> & _). exact Hwg.
    + eexists _, w'. exact Ht.
Qed.

(** Worker 1 of three over two slots holds message 1, and the lock of its
    slot is held once before it is granted. *)
Lemma process_slot_index_witness :
  exists w' levs post,
    process 1 msg1
      (handed msg1 (running options0
                      (set_wakes [TimedOut] (set_lockReplies [Busy; Acquired] quiet))))
    = Ok (Some boom) w' /\
    1 mod 2 = 1 /\
    lock_events 1 levs /\ Forall off_slots post /\
    trace w' = levs ++ Handle msg1 :: UnlockCall 1 :: post /\
    firstn 3 (trace w')
    = [LockCall 1 Busy; Wait 1 lockTimeout TimedOut; LockCall 1 Acquired].
Proof.
  destruct (process_slot_index 1 msg1
              (handed msg1 (running options0
                              (set_wakes [TimedOut]
                                 (set_lockReplies [Busy; Acquired] quiet)))))
    as (Hmod & Hrun & _).
  - vm_compute. split; [discriminate | reflexivity].
  - split; vm_compute; reflexivity.
  - vm_compute. discriminate.
  - assert (Heq : process 1 msg1
                    (handed msg1 (running options0
                                    (set_wakes [TimedOut]
                                       (set_lockReplies [Busy; Acquired] quiet))))
                  = Ok (Some boom)
                       (world_of (process 1 msg1
                          (handed msg1 (running options0
                                          (set_wakes [TimedOut]
                                             (set_lockReplies [Busy; Acquired] quiet)))))))
      by (vm_compute; reflexivity).
    rewrite Heq in Hrun. destruct Hrun as (levs & post & Hl & Hp & Happ).
    eexists _, levs, post. split; [exact Heq |].
    split; [reflexivity |]. split; [exact Hl |]. split; [exact Hp |].
    split; [exact Happ | vm_compute; reflexivity].
Defined.

(** C1, as the claim has it, fails twice over.  [Start] launches workers 0,
    1 and 2 over two slots.  Worker 2 would have to take the lock of slot
    [2 mod 2 = 0] and then call the handler; the lock is free, but the run
    stops on the slice index: no Lock() is made and the handler is never
    called.  And worker 1, given a message that is not due yet, returns
    without any Lock() or Unlock(). *)
Lemma process_worker2_of_2_slots :
  let w := handed msg1 (running options0 (set_lockReplies [Acquired] quiet)) in
  let late := {| Id := 2; Delay := time.Second; ReservedCount := 0 |} in
  let w2 := handed late (running options0 (set_lockReplies [Acquired] quiet)) in
  In (Go (GWorker 2)) (trace (world_of (Start (fresh options0 quiet)))) /\
  2 mod MaxWorkers (opt (proc w)) = 0 /\
  process 2 msg1 w = Panic "index out of range" w /\
  trace (world_of (process 2 msg1 w)) = [] /\
  (exists w', process 1 late w2 = Ok None w' /\
              trace w' = [ReleaseCall late time.Second]).
Proof.
  cbv zeta.
  split; [vm_compute; auto 10 |].
  split; [vm_compute; reflexivity |].
  split; [vm_compute; reflexivity |].
  split; [vm_compute; reflexivity |].
  eexists. split; vm_compute; reflexivity.
Qed.

(** C6, as the code has it.  [lockWorker] retries the non-blocking Lock()
    after every refusal, waiting in between on the slot's channel for a wake
    token or for 1234 ms; it returns at the first Lock() that answers
    [Acquired], holding the lock, or that reports an error: the error is
    logged and the call returns at once, without the lock and without
    another Lock() or wait. *)
Theorem lockWorker_polls (id : Z) (w : World) (l : Lock) (ws ws' : list wake)
        (r : lock_reply) (rest : list lock_reply) :
  0 <= id ->
  workerChans (proc w) !! Z.to_nat id = Some false ->
  workerLocks (proc w) !! Z.to_nat id = Some l ->
  lockReplies (env w) = repeat Busy (length ws) ++ r :: rest ->
  r <> Busy ->
  wakes (env w) = ws ++ ws' ->
  lockTimeout = 1234 * time.Millisecond /\
  lockWorker id w =
  Ok tt {| proc := proc w;
           env := set_wakes ws' (set_lockReplies rest (env w));
           trace := trace w ++ rounds (Z.to_nat id) ws
                            ++ LockCall (Z.to_nat id) r :: lockLog r |}.
Proof.
  intros Hid Hc Hl Hr Hnb Hw. split; [reflexivity |].
  unfold lockWorker, index. run.
  destruct (id <? 0) eqn:E; [lia |]. rewrite Hc, Hl. run.
  apply lockWorker_loop_poll; try assumption.
  - rewrite Hr, length_app, repeat_length. simpl. lia.
  - rewrite Hc. discriminate.
Qed.

(** Slot 1 held twice and then free; and slot 1 with the lock service
    down. *)
Lemma lockWorker_polls_witness :
  (exists w',
     lockWorker 1 (running options0
                     (set_wakes [TimedOut; Token]
                        (set_lockReplies [Busy; Busy; Acquired] quiet))) = Ok tt w' /\
     trace w' = [LockCall 1 Busy; Wait 1 lockTimeout TimedOut;
                 LockCall 1 Busy; Wait 1 lockTimeout Token;
                 LockCall 1 Acquired]) /\
  (exists w',
     lockWorker 1 (running options0 (set_lockReplies [Failed down; Acquired] quiet))
       = Ok tt w' /\
     trace w' = [LockCall 1 (Failed down); Log (LogLockFailed down)] /\
     lockReplies (env w') = [Acquired]).
Proof.
  split.
  - destruct (lockWorker_polls 1
                (running options0
                   (set_wakes [TimedOut; Token]
                      (set_lockReplies [Busy; Busy; Acquired] quiet)))
                {| keyQueue := "mail"; keySlot := 1; LockTimeout := 10 * time.Second |}
                [TimedOut; Token] [] Acquired [])
      as [_ H];
      [lia | vm_compute; reflexivity | vm_compute; reflexivity
       | vm_compute; reflexivity | discriminate | vm_compute; reflexivity |].
    eexists. split; [exact H | vm_compute; reflexivity].
  - destruct (lockWorker_polls 1
                (running options0 (set_lockReplies [Failed down; Acquired] quiet))
                {| keyQueue := "mail"; keySlot := 1; LockTimeout := 10 * time.Second |}
                [] [] (Failed down) [Acquired])
      as [_ H];
      [lia | vm_compute; reflexivity | vm_compute; reflexivity
       | vm_compute; reflexivity | discriminate | vm_compute; reflexivity |].
    eexists. split; [exact H |]. split; vm_compute; reflexivity.
Defined.

(** C6, as the claim has it, fails: the lock service answers the first
    Lock() with an error and would grant the second.  [lockWorker] returns
    after the first, without waiting and without a second Lock(): it
    returns while the lock is not held. *)
Lemma lockWorker_returns_without_lock :
  let w := running options0 (set_lockReplies [Failed down; Acquired] quiet) in
  let w' := world_of (lockWorker 1 w) in
  lockWorker 1 w = Ok tt w' /\
  trace w' = [LockCall 1 (Failed down); Log (LogLockFailed down)] /\
  lockReplies (env w') = [Acquired] /\
  ~ In (LockCall 1 Acquired) (trace w') /\
  (forall x, ~ In (Wait 1 lockTimeout x) (trace w')).
Proof.
  cbv zeta.
  do 3 (split; [vm_compute; reflexivity |]).
  split; [vm_compute; intros H; decompose [or] H; discriminate || assumption |].
  intros x. vm_compute. intros H. decompose [or] H; discriminate || assumption.
Qed.
End ProcessOne.

(** ** The fetch loop of ProcessAll *)

(** Reads the environment through the updates made to it. *)
Ltac envs :=
  cbn [processor.lockReplies processor.wakes processor.inFlightReads
       processor.reserves processor.drains processor.exits
       processor.set_lockReplies processor.set_wakes processor.set_inFlightReads
       processor.set_reserves processor.set_drains processor.set_exits].

Section FetchLoop.

Import GoInt processor Runs Samples.

Lemma fetch_frame_refl (w : World) : fetch_frame w w.
Proof.
  unfold fetch_frame, appended.
  do 6 (split; [reflexivity |]). split; [auto |].
  exists []. rewrite app_nil_r. split; [reflexivity | constructor].
Qed.

Lemma fetch_frame_trans (w1 w2 w3 : World) :
  fetch_frame w1 w2 -> fetch_frame w2 w3 -> fetch_frame w1 w3.
Proof.
  intros (H1 & H2 & H3 & H4 & H5 & H6 & H7 & evs & Ha & He)
         (K1 & K2 & K3 & K4 & K5 & K6 & K7 & evs' & Ka & Ke).
  unfold fetch_frame, appended in *.
  do 6 (split; [congruence |]). split; [auto |].
  exists (evs ++ evs'). split.
  - rewrite Ka, Ha, <- app_assoc. reflexivity.
  - apply Forall_app. auto.
Qed.

(** A send on a channel that has room. *)
Lemma send_room (m : Message) (w : World) :
  room (proc w) 1 ->
  send m w = Ok tt {| proc := set_ch (ch (proc w) ++ [m]) (proc w);
                      env := env w; trace := trace w ++ [ChanSend m] |}.
Proof.
  unfold room, send. intros H. run.
  destruct (Z.of_nat (length (ch (proc w))) <? BufferSize (opt (proc w))) eqn:E;
    [reflexivity | lia].
Qed.

(** [Add] on each message of a batch the channel has room for: the batch
    goes to the channel in order. *)
Lemma addAll_run (ms : list Message) :
  forall w : World,
    0 <= wg (proc w) ->
    room (proc w) (length ms) ->
    exists w', addAll ms w = Ok tt w' /\
               env w' = env w /\
               wg (proc w') = wg (proc w) + Z.of_nat (length ms) /\
               ch (proc w') = ch (proc w) ++ ms /\
               appended w w' (map ChanSend ms) /\
               fetch_frame w w'.
Proof.
  induction ms as [| m ms IH]; intros w Hwg Hroom.
  - exists w. simpl. unfold appended. rewrite !app_nil_r.
    split; [reflexivity |]. split; [reflexivity |]. split; [lia |].
    split; [reflexivity |].
    split; [reflexivity | apply fetch_frame_refl].
  - unfold room in Hroom. cbn [length] in Hroom.
    cbn [addAll]. unfold Add. run.
    destruct (wg (proc w) + 1 <? 0) eqn:E; [lia |]. run.
    rewrite send_room by (unfold room; cbn [proc]; run; lia). run.
    match goal with
    | |- context [addAll ms ?w1] =>
        destruct (IH w1) as (w' & Hrun & Henv & Hw & Hch & Happ & Hfr);
        [simpl; lia
        | unfold room; cbn [proc]; run; rewrite length_app; cbn [length]; lia |];
        set (w0 := w1) in *
    end.
    exists w'. rewrite Hrun. split; [reflexivity |].
    assert (Hstep : fetch_frame w w0).
    { unfold fetch_frame, appended, w0; simpl.
      do 6 (split; [reflexivity |]). split; [lia |].
      exists [ChanSend m]. split; [reflexivity | repeat constructor]. }
    split; [rewrite Henv; reflexivity |].
    split; [rewrite Hw; unfold w0; simpl; lia |].
    split; [rewrite Hch; unfold w0; simpl; rewrite <- app_assoc; reflexivity |].
    split.
    + unfold appended in *. rewrite Happ. unfold w0. simpl.
      rewrite <- app_assoc. reflexivity.
    + eapply fetch_frame_trans; eassumption.
Qed.

(** One iteration of the loop of [ProcessAll], with room in the channel for
    what it fetches: it returns the error of a failed fetch, leaves the
    loop on the second idle round in a row, or goes on with the next
    round. *)
Lemma ProcessAll_loop_step (n : nat) (noWork : Z) (w : World) (t : tick)
      (R : list Z) (S' : list reserve_reply) :
  inFlightReads (env w) = fst t :: R ->
  reserves (env w) = snd t :: S' ->
  0 <= wg (proc w) ->
  room (proc w) (batch t) ->
  exists w1,
    fetch_frame w w1 /\ inFlightReads (env w1) = R /\ reserves (env w1) = S' /\
    length (ch (proc w1)) = (length (ch (proc w)) + batch t)%nat /\
    ProcessAll_loop (S n) noWork w =
    match fatal t with
    | Some e => Ok (Some e) w1
    | None =>
        if (if idle t then noWork + 1 else 0) =? 2 then Ok None w1
        else ProcessAll_loop n (if idle t then noWork + 1 else 0) w1
    end.
Proof.
  destruct t as [x [ms re]]. unfold fatal, idle, batch. cbn [fst snd rerr msgs].
  intros Hr Hs Hwg Hroom. cbn [ProcessAll_loop]. unfold loadInFlight, fetchMessages.
  run. rewrite Hr. run. envs. rewrite Hs. run. rewrite upd_same.
  assert (Hbase : forall evs, Forall fetch_event evs ->
            fetch_frame w
              {| proc := set_ctr (upd InFlight (uint32 x) (ctr (proc w))) (proc w);
                 env := set_reserves S' (set_inFlightReads R (env w));
                 trace := (trace w ++ [Reserve (BufferSize (opt (proc w)))]) ++ evs |}).
  { intros evs Hevs. unfold fetch_frame, appended. run. envs.
    rewrite upd_other by discriminate.
    do 6 (split; [reflexivity |]). split; [auto |].
    exists (Reserve (BufferSize (opt (proc w))) :: evs). split.
    - rewrite <- app_assoc. reflexivity.
    - constructor; [exact I | exact Hevs]. }
  destruct re as [e |]; cbn [rerr msgs]; run.
  - destruct (isNotSupported e); run.
    + rewrite Z.eqb_refl. cbn [andb].
      destruct ((if uint32 x =? 0 then noWork + 1 else 0) =? 2); run.
      * eexists. split; [| split; [| split; [| split]]]; [| | | | reflexivity];
          [| reflexivity | reflexivity | run; lia].
        specialize (Hbase [] ltac:(constructor)). rewrite app_nil_r in Hbase. exact Hbase.
      * eexists. split; [| split; [| split; [| split]]]; [| | | | reflexivity];
          [| reflexivity | reflexivity | run; lia].
        apply Hbase. repeat constructor.
    + eexists. split; [| split; [| split; [| split]]]; [| | | | reflexivity];
        [| reflexivity | reflexivity | run; lia].
      specialize (Hbase [] ltac:(constructor)). rewrite app_nil_r in Hbase. exact Hbase.
  - match goal with
    | |- context [addAll ms ?w2] =>
        destruct (addAll_run ms w2) as (w' & Hrun & Henv & Hw & Hch & Happ & Hfr);
        [exact Hwg | exact Hroom |]; rewrite Hrun
    end.
    exists w'. run.
    split; [| split; [rewrite Henv; reflexivity | split; [rewrite Henv; reflexivity |]]].
    2: { split; [rewrite Hch, length_app; reflexivity |].
         destruct (_ =? 2); reflexivity. }
    eapply fetch_frame_trans; [| exact Hfr].
    specialize (Hbase [] ltac:(constructor)). rewrite app_nil_r in Hbase. exact Hbase.
Qed.

(** The iterations that stay in the loop. *)
Lemma ProcessAll_loop_prefix (ts : list tick) :
  forall (noWork noWork' : Z) (n : nat) (w : World)
         (R : list Z) (S' : list reserve_reply),
    noWorkAfter noWork ts = Some noWork' ->
    inFlightReads (env w) = map fst ts ++ R ->
    reserves (env w) = map snd ts ++ S' ->
    0 <= wg (proc w) ->
    room (proc w) (fetched ts) ->
    exists w1,
      fetch_frame w w1 /\ inFlightReads (env w1) = R /\ reserves (env w1) = S' /\
      0 <= wg (proc w1) /\
      length (ch (proc w1)) = (length (ch (proc w)) + fetched ts)%nat /\
      ProcessAll_loop (length ts + n) noWork w = ProcessAll_loop n noWork' w1.
Proof.
  induction ts as [| t ts IH]; intros noWork noWork' n w R S' Hn Hr Hs Hwg Hroom.
  - injection Hn as <-. exists w. simpl in *.
    split; [apply fetch_frame_refl |]. repeat split; auto.
  - cbn [noWorkAfter] in Hn. cbn [map app] in Hr, Hs.
    unfold room in Hroom. cbn [fetched] in Hroom.
    destruct (ProcessAll_loop_step (length ts + n) noWork w t _ _ Hr Hs Hwg)
      as (w1 & Hfr & Hr1 & Hs1 & Hch1 & Hrun); [unfold room; lia |].
    destruct (fatal t); [discriminate |].
    destruct ((if idle t then noWork + 1 else 0) =? 2); [discriminate |].
    assert (Hwg1 : 0 <= wg (proc w1)) by (apply Hfr; exact Hwg).
    assert (Hopt : opt (proc w1) = opt (proc w)) by apply Hfr.
    destruct (IH _ _ n w1 R S' Hn Hr1 Hs1 Hwg1)
      as (w2 & Hfr2 & Hr2 & Hs2 & Hwg2 & Hch2 & Hrun2);
      [unfold room; rewrite Hopt, Hch1; lia |].
    exists w2. split; [eapply fetch_frame_trans; eassumption |].
    repeat split; try assumption.
    + rewrite Hch2, Hch1. cbn [fetched]. lia.
    + cbn [length Nat.add]. rewrite Hrun. exact Hrun2.
Qed.

(** [startWorkers] on a stopped processor: whoever is still counted in the
    workers' WaitGroup is left behind on the channel it replaces. *)
Lemma startWorkers_run (w : World) :
  ctr (proc w) Started = 0 ->
  0 <= WorkerNumber (opt (proc w)) ->
  0 <= workersWG (proc w) ->
  startWorkers w =
  Ok true
     {| proc := set_workersWG (workersWG (proc w) + WorkerNumber (opt (proc w)))
                  (set_stopWorkers ChanOpen
                     (set_strays (workersWG (proc w))
                        (set_ctr (upd Started 1 (ctr (proc w))) (proc w))));
        env := env w;
        trace := trace w ++ MakeStop
                   :: launched (Z.to_nat (WorkerNumber (opt (proc w)))) 0 |}.
Proof.
  intros Hs Hn Hwg. unfold startWorkers. run. rewrite Hs. cbn [Z.eqb]. run.
  destruct (_ <? 0) eqn:E; [lia |]. run.
  rewrite spawnWorkers_run. run. rewrite <- app_assoc. reflexivity.
Qed.

(** C10.  [ProcessAll] on a stopped processor starts the workers and runs
    the fetch loop; the channel has room for what the rounds fetch, so that
    no send waits for a worker.  When, after rounds that stay in the loop,
    [ReserveN] fails with an error other than [ErrNotSupported],
    [ProcessAll] returns that error at once: the started flag is still set,
    [stopWorkers] is open, nothing of what [stopWorkersTimeout] reads was
    asked, and after the launch of the workers the trace holds fetch events
    only.  When instead the second idle round in a row comes, the loop ends
    and [ProcessAll] goes on as [stopWorkersTimeout]: on a processor that
    is started, it clears the flag and waits for the in-flight work; when
    that drains and the workers launched here, the only ones counted, all
    return, it closes [stopWorkers], waits for workers and batcher, and
    returns nil. *)
Theorem ProcessAll_fetch_error (w : World) (ts : list tick) (last : tick)
        (noWork : Z) (R : list Z) (S' : list reserve_reply) :
  ctr (proc w) Started = 0 ->
  0 <= WorkerNumber (opt (proc w)) ->
  0 <= workersWG (proc w) ->
  0 <= wg (proc w) ->
  inFlightReads (env w) = map fst ts ++ fst last :: R ->
  reserves (env w) = map snd ts ++ snd last :: S' ->
  noWorkAfter 0 ts = Some noWork ->
  room (proc w) (fetched ts + batch last) ->
  (forall e, fatal last = Some e ->
     rerr (snd last) = Some e /\ isNotSupported e = false /\
     exists w' evs,
       ProcessAll w = Ok (Some e) w' /\
       ctr (proc w') Started = 1 /\
       stopWorkers (proc w') = ChanOpen /\
       drains (env w') = drains (env w) /\
       exits (env w') = exits (env w) /\
       Forall fetch_event evs /\
       appended w w'
         (MakeStop :: launched (Z.to_nat (WorkerNumber (opt (proc w)))) 0 ++ evs)) /\
  (fatal last = None -> idle last = true -> noWork = 1 ->
     exists w2 evs,
       ProcessAll w = stopWorkersTimeout stopTimeout w2 /\
       ctr (proc w2) Started = 1 /\
       stopWorkers (proc w2) = ChanOpen /\
       Forall fetch_event evs /\
       appended w w2
         (MakeStop :: launched (Z.to_nat (WorkerNumber (opt (proc w)))) 0 ++ evs) /\
       (forall ds xs,
          workersWG (proc w) = 0 ->
          drains (env w) = true :: ds ->
          exits (env w) = true :: xs ->
          exists w',
            ProcessAll w = Ok None w' /\
            ctr (proc w') Started = 0 /\
            stopWorkers (proc w') = ChanClosed /\
            workersWG (proc w') = 0 /\
            appended w2 w' [Go GWaitInFlight; CloseStop; WaitWorkers; BatchWait])).
Proof.
  intros Hs Hn Hwwg Hwg Hr Hres Hnw Hroom.
  pose proof (startWorkers_run w Hs Hn Hwwg) as Hstart.
  set (w0 := {| proc := set_workersWG (workersWG (proc w) + WorkerNumber (opt (proc w)))
                          (set_stopWorkers ChanOpen
                             (set_strays (workersWG (proc w))
                                (set_ctr (upd Started 1 (ctr (proc w))) (proc w))));
                env := env w;
                trace := trace w ++ MakeStop
                           :: launched (Z.to_nat (WorkerNumber (opt (proc w)))) 0 |}) in *.
  assert (Hfuel : S (length (reserves (env w0)))
                  = (length ts + S (S (length S')))%nat).
  { unfold w0. cbn [env]. rewrite Hres, length_app, length_map. simpl.
    rewrite !Nat.add_succ_r. reflexivity. }
  unfold room in Hroom.
  destruct (ProcessAll_loop_prefix ts 0 noWork (S (S (length S'))) w0
              (fst last :: R) (snd last :: S') Hnw Hr Hres Hwg)
    as (w1 & Hfr1 & Hr1 & Hs1 & Hwg1 & Hch1 & Hloop);
    [unfold room, w0; cbn [proc]; run; lia |].
  assert (Hopt1 : opt (proc w1) = opt (proc w)) by apply Hfr1.
  destruct (ProcessAll_loop_step (S (length S')) noWork w1 last R S' Hr1 Hs1 Hwg1)
    as (w2 & Hfr2 & _ & _ & _ & Hstep);
    [unfold room; rewrite Hopt1, Hch1; unfold w0; cbn [proc]; run; lia |].
  pose proof (fetch_frame_trans _ _ _ Hfr1 Hfr2)
    as (Hst & Hstop & _ & Hdr & Hstr & Hex & _ & evs & Happ & Hevs).
  assert (Hall : ProcessAll w =
                 (r ← ProcessAll_loop (S (S (length S'))) noWork;
                  match r with
                  | Some err => mret (Some err)
                  | None => stopWorkersTimeout stopTimeout
                  end) w1).
  { unfold ProcessAll. cbv [mbind M_bind]. rewrite Hstart.
    unfold getEnv. rewrite Hfuel, Hloop. reflexivity. }
  assert (Hst2 : ctr (proc w2) Started = 1).
  { rewrite Hst. unfold w0. run. apply upd_same. }
  assert (Hstop2 : stopWorkers (proc w2) = ChanOpen).
  { rewrite Hstop. reflexivity. }
  assert (Happ2 : appended w w2
            (MakeStop :: launched (Z.to_nat (WorkerNumber (opt (proc w)))) 0 ++ evs)).
  { unfold appended in *. rewrite Happ. unfold w0. cbn [trace].
    rewrite <- app_assoc. reflexivity. }
  split.
  - intros e He. rewrite He in Hstep.
    assert (Hre : rerr (snd last) = Some e /\ isNotSupported e = false).
    { unfold fatal in He. destruct (rerr (snd last)) as [e' |]; [| discriminate].
      destruct (isNotSupported e') eqn:E; [discriminate |].
      injection He as <-. auto. }
    split; [apply Hre |]. split; [apply Hre |].
    exists w2, evs. rewrite Hall. cbv [mbind M_bind]. rewrite Hstep.
    split; [reflexivity |].
    split; [exact Hst2 |]. split; [exact Hstop2 |].
    split; [rewrite Hdr; reflexivity |].
    split; [rewrite Hex; reflexivity |].
    split; [exact Hevs | exact Happ2].
  - intros Hnf Hidle ->. rewrite Hnf, Hidle in Hstep.
    assert (E2 : (1 + 1 =? 2) = true) by reflexivity. rewrite E2 in Hstep. clear E2.
    assert (Hgo : ProcessAll w = stopWorkersTimeout stopTimeout w2).
    { rewrite Hall. cbv [mbind M_bind]. rewrite Hstep. reflexivity. }
    exists w2, evs.
    split; [exact Hgo |]. split; [exact Hst2 |]. split; [exact Hstop2 |].
    split; [exact Hevs |]. split; [exact Happ2 |].
    intros ds xs Hnone Hd Hx. rewrite Hgo.
    unfold stopWorkersTimeout, closeStopWorkers, waitWorkers. run.
    rewrite Hst2. cbn [Z.eqb Pos.eqb]. run.
    rewrite Hdr. unfold w0 at 1. cbn [env]. rewrite Hd. run.
    rewrite Hstop2. run.
    rewrite Hstr. unfold w0 at 1. run. rewrite Hnone. cbn [Z.eqb]. run.
    envs. rewrite Hex. unfold w0 at 1. cbn [env]. rewrite Hx. run.
    eexists. split; [reflexivity |]. run.
    split; [apply upd_same |]. split; [reflexivity |]. split; [reflexivity |].
    unfold appended. cbn [trace]. rewrite <- !app_assoc. reflexivity.
Qed.

(** A fetch that fails on the second round, after a round that brought one
    message; and, on a fresh processor, two idle rounds in a row with the
    work drained and the two workers gone. *)
Lemma ProcessAll_fetch_error_witness :
  (exists w',
     ProcessAll (fresh options1
                   (set_reserves [ {| msgs := [msg0]; rerr := None |};
                                   {| msgs := []; rerr := Some boom |} ]
                      (set_inFlightReads [0; 1] quiet)))
       = Ok (Some boom) w' /\
     ctr (proc w') Started = 1 /\ stopWorkers (proc w') = ChanOpen) /\
  (exists w',
     ProcessAll (fresh options1
                   (set_exits [true]
                      (set_drains [true]
                         (set_reserves [ {| msgs := []; rerr := None |};
                                         {| msgs := []; rerr := None |} ]
                            (set_inFlightReads [0; 0] quiet)))))
       = Ok None w' /\
     ctr (proc w') Started = 0 /\ stopWorkers (proc w') = ChanClosed).
Proof.
  split.
  - destruct (ProcessAll_fetch_error
                (fresh options1
                   (set_reserves [ {| msgs := [msg0]; rerr := None |};
                                   {| msgs := []; rerr := Some boom |} ]
                      (set_inFlightReads [0; 1] quiet)))
                [(0, {| msgs := [msg0]; rerr := None |})]
                (1, {| msgs := []; rerr := Some boom |}) 0 [] [])
      as [HA _];
      try (vm_compute; reflexivity); try (vm_compute; discriminate).
    destruct (HA boom) as (_ & _ & w' & evs & Hrun & Hst & Hstop & _);
      [vm_compute; reflexivity |].
    exists w'. auto.
  - destruct (ProcessAll_fetch_error
                (fresh options1
                   (set_exits [true]
                      (set_drains [true]
                         (set_reserves [ {| msgs := []; rerr := None |};
                                         {| msgs := []; rerr := None |} ]
                            (set_inFlightReads [0; 0] quiet)))))
                [(0, {| msgs := []; rerr := None |})]
                (0, {| msgs := []; rerr := None |}) 1 [] [])
      as [_ HB];
      try (vm_compute; reflexivity); try (vm_compute; discriminate).
    destruct HB as (w2 & evs & _ & _ & _ & _ & _ & Hret);
      try (vm_compute; reflexivity).
    destruct (Hret [] []) as (w' & Hrun & Hst & Hstop & _);
      try (vm_compute; reflexivity).
    exists w'. auto.
Defined.
End FetchLoop.

(** * Further properties *)

(** ** Backoff, away from the overflow *)

Section BackoffRange.

Import GoInt processor.

(** As long as [min * 2^(retry-1)] is an [int64], the delay is that
    product capped at twelve hours. *)
Theorem exponentialBackoff_no_overflow (dur retry : Z) :
  1 <= retry ->
  in_int64 (dur * 2 ^ (retry - 1)) ->
  exponentialBackoff dur retry = Z.min (dur * 2 ^ (retry - 1)) maxBackoff.
Proof.
  intros Hr [Hlo Hhi].
  destruct (Z_le_gt_dec (dur * 2 ^ (retry - 1)) maxBackoff) as [Hle | Hgt].
  - rewrite Z.min_l by exact Hle. apply exponentialBackoff_exact; lia.
  - rewrite Z.min_r by lia. apply exponentialBackoff_clamped; lia.
Qed.

Lemma exponentialBackoff_no_overflow_witness :
  exponentialBackoff time.Millisecond 3 = 4 * time.Millisecond /\
  exponentialBackoff time.Hour 5 = 12 * time.Hour.
Proof.
  split.
  - rewrite (exponentialBackoff_no_overflow time.Millisecond 3);
      [vm_compute; reflexivity | lia | vm_compute; split; discriminate].
  - rewrite (exponentialBackoff_no_overflow time.Hour 5);
      [vm_compute; reflexivity | lia | vm_compute; split; discriminate].
Defined.

(** A retry count of zero or less turns into a shift count of 64 or more:
    the delay is zero, whatever the minimum. *)
Theorem exponentialBackoff_retry_nonpositive (dur retry : Z) :
  MinInt64 <= retry <= 0 ->
  exponentialBackoff dur retry = 0.
Proof.
  unfold MinInt64. intros Hr. unfold exponentialBackoff, shl64, uint64, uwrap.
  assert (Hs : (retry - 1) mod 2 ^ 64 = retry - 1 + 2 ^ 64).
  { rewrite <- (Z.mod_add (retry - 1) 1 (2 ^ 64)) by lia.
    apply Z.mod_small. lia. }
  rewrite Hs. destruct (64 <=? retry - 1 + 2 ^ 64) eqn:E; [reflexivity | lia].
Qed.

Lemma exponentialBackoff_retry_nonpositive_witness :
  exponentialBackoff (30 * time.Second) 0 = 0.
Proof.
  apply (exponentialBackoff_retry_nonpositive (30 * time.Second) 0).
  vm_compute. split; discriminate.
Defined.

End BackoffRange.

(** ** The roulette over several rounds *)

Section RouletteRounds.

Import GoInt taskq Tuning Samples.

Lemma Select_opt (free1 free2 queueEmpty : bool) (r : configRoulette)
      (cfg : consumerConfig) :
  opt (fst (Select free1 free2 r cfg queueEmpty)) = opt r.
Proof.
  unfold Select, incrementConfig, withMoreFetchers, withMoreWorkers.
  destruct free1, free2, queueEmpty; simpl;
    try (destruct (NumFetcher cfg >=? MaxNumFetcher (opt r))); reflexivity.
Qed.

Lemma Select_NumFetcher_step (free1 queueEmpty : bool) (r : configRoulette)
      (cfg : consumerConfig) :
  - 2 ^ 31 <= NumFetcher cfg <= MaxNumFetcher (opt r) ->
  MaxNumFetcher (opt r) < 2 ^ 31 ->
  NumFetcher (snd (Select free1 true r cfg queueEmpty))
  = Z.min (MaxNumFetcher (opt r)) (NumFetcher cfg + 1).
Proof.
  intros Hb Hm.
  unfold Select, incrementConfig, withMoreFetchers, withMoreWorkers.
  destruct free1, queueEmpty; simpl;
    destruct (NumFetcher cfg >=? MaxNumFetcher (opt r)) eqn:E; simpl;
    try rewrite int32_id; lia.
Qed.

(** [n] selections in a row with free resources and a queue that is not
    empty: the workers grow by five each time, past any configured maximum,
    while the fetchers grow by one each time and stop at theirs. *)
Theorem selectN_growth (n : nat) :
  forall (r : configRoulette) (cfg : consumerConfig),
    MaxNumFetcher (opt r) < 2 ^ 31 ->
    - 2 ^ 31 <= NumFetcher cfg <= MaxNumFetcher (opt r) ->
    - 2 ^ 31 <= NumWorker cfg ->
    NumWorker cfg + 5 * Z.of_nat n < 2 ^ 31 ->
    NumWorker (snd (selectN n r cfg)) = NumWorker cfg + 5 * Z.of_nat n /\
    NumFetcher (snd (selectN n r cfg))
    = Z.min (MaxNumFetcher (opt r)) (NumFetcher cfg + Z.of_nat n).
Proof.
  induction n as [| n IH]; intros r cfg Hm Hf Hw Hn.
  - simpl. split; lia.
  - cbn [selectN].
    pose proof (Select_NumWorker_step true r cfg) as Hw1.
    pose proof (Select_NumFetcher_step true false r cfg Hf Hm) as Hf1.
    pose proof (Select_opt true true false r cfg) as Ho.
    rewrite int32_id in Hw1 by lia.
    destruct (IH (fst (Select true true r cfg false))
                 (snd (Select true true r cfg false))) as [IHw IHf];
      rewrite ?Ho, ?Hw1, ?Hf1; try lia.
    rewrite IHw, IHf, Ho, Hw1, Hf1. split; lia.
Qed.

(** Ten rounds from one fetcher and one worker, with at most four fetchers
    and ten workers configured. *)
Lemma selectN_growth_witness :
  NumWorker (snd (selectN 10 roulette0 (NewConsumerConfig 1 1))) = 51 /\
  NumFetcher (snd (selectN 10 roulette0 (NewConsumerConfig 1 1))) = 4.
Proof.
  assert (H1 : MaxNumFetcher (opt roulette0) < 2 ^ 31) by (vm_compute; reflexivity).
  assert (H2 : - 2 ^ 31 <= NumFetcher (NewConsumerConfig 1 1)
               <= MaxNumFetcher (opt roulette0))
    by (vm_compute; split; discriminate).
  assert (H3 : - 2 ^ 31 <= NumWorker (NewConsumerConfig 1 1))
    by (vm_compute; discriminate).
  assert (H4 : NumWorker (NewConsumerConfig 1 1) + 5 * Z.of_nat 10 < 2 ^ 31)
    by (vm_compute; reflexivity).
  destruct (selectN_growth 10 roulette0 (NewConsumerConfig 1 1) H1 H2 H3 H4)
    as [Hw Hf].
  rewrite Hw, Hf. split; vm_compute; reflexivity.
Defined.

(** A bounded fetcher count for one selection. *)
Lemma Select_NumFetcher_bounded_witness :
  1 <= NumFetcher (snd (Select true true roulette0 (NewConsumerConfig 4 1) false)) <= 4.
Proof.
  assert (H1 : MaxNumFetcher (opt roulette0) < 2 ^ 31) by (vm_compute; reflexivity).
  assert (H2 : - 2 ^ 31 <= NumFetcher (NewConsumerConfig 4 1))
    by (vm_compute; discriminate).
  assert (H3 : MinNumFetcher (opt roulette0) <= NumFetcher (NewConsumerConfig 4 1)
               <= MaxNumFetcher (opt roulette0))
    by (vm_compute; split; discriminate).
  exact (Select_NumFetcher_bounded true true false roulette0
           (NewConsumerConfig 4 1) H1 H2 H3).
Defined.

(** [Equal] compares the two counts and nothing else: it is an equivalence,
    and a [Clone] is equal to its original while its statistics start
    from zero. *)
Theorem Equal_Clone (a b c : consumerConfig) :
  (Equal a b = true <-> NumWorker a = NumWorker b /\ NumFetcher a = NumFetcher b) /\
  Equal a a = true /\
  Equal a b = Equal b a /\
  (Equal a b = true -> Equal b c = true -> Equal a c = true) /\
  Equal (Clone a) a = true /\
  profile (Clone a) = zeroProfile /\
  NumSelected (Clone a) = 0 /\
  Score (Clone a) = 0%float.
Proof.
  assert (Hiff : forall x y, Equal x y = true <->
                             NumWorker x = NumWorker y /\ NumFetcher x = NumFetcher y).
  { intros x y. unfold Equal. rewrite andb_true_iff, !Z.eqb_eq. tauto. }
  split; [apply Hiff |].
  split; [apply Hiff; auto |].
  split.
  { unfold Equal. rewrite (Z.eqb_sym (NumWorker a)), (Z.eqb_sym (NumFetcher a)).
    reflexivity. }
  split.
  { rewrite !Hiff. intros [] []. split; congruence. }
  split; [apply Hiff; split; reflexivity |].
  repeat split.
Qed.

Lemma Equal_Clone_witness :
  Equal (NewConsumerConfig 2 7) (Clone (SetScore (NewConsumerConfig 2 7) 3%float)) = true.
Proof.
  destruct (Equal_Clone (Clone (SetScore (NewConsumerConfig 2 7) 3%float))
                        (NewConsumerConfig 2 7) (NewConsumerConfig 2 7))
    as (_ & _ & Hsym & _).
  rewrite <- Hsym. vm_compute. reflexivity.
Defined.

End RouletteRounds.

(** Closed comparisons, by evaluation. *)
Ltac evaluate := vm_compute; repeat split; first [discriminate | reflexivity].

(** ** Construction and the wake channel *)

Section Slots.

Import GoInt processor Runs Samples.

Lemma lookup_map_seq {A} (f : nat -> A) (n : nat) :
  forall j i : nat, (i < n)%nat -> map f (seq j n) !! i = Some (f (j + i)%nat).
Proof.
  induction n as [| n IH]; intros j i Hi; [lia |].
  destruct i as [| i]; simpl.
  - rewrite Nat.add_0_r. reflexivity.
  - rewrite IH by lia. f_equal. f_equal. lia.
Qed.

(** [New] allocates one wake channel and one lock per slot when
    [MaxWorkers] is positive, and none otherwise: the channels are empty,
    lock [i] carries the queue's name, the slot [i] and the reservation
    timeout as its TTL, and the reader of the wake topic is launched.  All
    counters start at zero and the processor is stopped. *)
Theorem New_slots (qu : Queuer) (o : Options) (rd : Redis) (h : Message -> Run)
        (fb : option (Message -> option error)) (w : World) :
  exists w',
    New qu o rd h fb w = Ok tt w' /\
    (forall c, ctr (proc w') c = 0) /\
    stopWorkers (proc w') = ChanNil /\ wg (proc w') = 0 /\ workersWG (proc w') = 0 /\
    opt (proc w') = o /\
    (0 < MaxWorkers o ->
       slots_allocated (proc w') /\
       Forall (eq false) (workerChans (proc w')) /\
       (forall i, 0 <= i < MaxWorkers o ->
          index (workerLocks (proc w')) i
          = Some {| keyQueue := Name qu; keySlot := i;
                    LockTimeout := ReservationTimeout o |}) /\
       appended w w' [Go GReader]) /\
    (MaxWorkers o <= 0 ->
       workerChans (proc w') = [] /\ workerLocks (proc w') = [] /\
       trace w' = trace w).
Proof.
  unfold New. run.
  destruct (MaxWorkers o >? 0) eqn:E; run; eexists; (split; [reflexivity |]);
    run; repeat (split; [reflexivity |]); split; intros Hm; try lia.
  - split; [| split; [| split]].
    + split; cbn [opt workerChans workerLocks].
      * apply length_replicate.
      * unfold newLocks. rewrite length_map, length_seq. reflexivity.
    + apply Forall_replicate_eq.
    + intros i Hi. unfold index, newLocks.
      destruct (i <? 0) eqn:Ei; [lia |].
      rewrite lookup_map_seq by lia. simpl. rewrite Z2Nat.id by lia. reflexivity.
    + reflexivity.
  - rewrite ?world_eta. repeat split.
Qed.

Lemma New_slots_witness :
  exists w',
    New queue0 options0 redis0 handler0 None (on blank quiet) = Ok tt w' /\
    index (workerLocks (proc w')) 1
    = Some {| keyQueue := "mail"; keySlot := 1; LockTimeout := 10 * time.Second |}.
Proof.
  destruct (New_slots queue0 options0 redis0 handler0 None (on blank quiet))
    as (w' & Hrun & _ & _ & _ & _ & _ & Hpos & _).
  exists w'. split; [exact Hrun |].
  destruct Hpos as (_ & _ & Hlock & _); [vm_compute; reflexivity |].
  apply (Hlock 1). evaluate.
Defined.

(** The reader's delivery of a wake for slot [id]: within the slices it
    leaves one token in that slot's channel and no other channel changes;
    a second delivery finds the channel full and changes nothing.  An index
    outside the slices (a negative one too) is a panic. *)
Theorem deliverWake_token (id : Z) (w : World) :
  (0 <= id < Z.of_nat (length (workerChans (proc w))) ->
     exists w',
       deliverWake id w = Ok tt w' /\
       workerChans (proc w') !! Z.to_nat id = Some true /\
       (forall j, j <> Z.to_nat id ->
                  workerChans (proc w') !! j = workerChans (proc w) !! j) /\
       lock_frame (proc w) (proc w') /\
       env w' = env w /\ trace w' = trace w /\
       deliverWake id w' = Ok tt w') /\
  (id < 0 \/ Z.of_nat (length (workerChans (proc w))) <= id ->
     deliverWake id w = Panic "index out of range" w).
Proof.
  split.
  - intros Hid. destruct (index_Some (workerChans (proc w)) id Hid) as [x Hx].
    unfold deliverWake. run. rewrite Hx. run.
    eexists. split; [reflexivity |]. run.
    split; [apply list_lookup_insert_eq; lia |].
    split; [intros j Hj; apply list_lookup_insert_ne; congruence |].
    split; [apply lock_frame_workerChans; apply length_insert |].
    split; [reflexivity |]. split; [reflexivity |].
    assert (Hx' : index (<[Z.to_nat id := true]> (workerChans (proc w))) id = Some true).
    { unfold index. destruct (id <? 0) eqn:E; [lia |].
      apply list_lookup_insert_eq. lia. }
    rewrite Hx'. run. rewrite list_insert_insert_eq. reflexivity.
  - intros Hid. unfold deliverWake. run.
    assert (Hn : index (workerChans (proc w)) id = None).
    { destruct Hid as [Hneg | Hge]; [| apply index_None; exact Hge].
      unfold index. destruct (id <? 0) eqn:E; [reflexivity | lia]. }
    rewrite Hn. rewrite ?world_eta. reflexivity.
Qed.

Lemma deliverWake_token_witness :
  (exists w', deliverWake 1 (running options0 quiet) = Ok tt w' /\
              workerChans (proc w') = [false; true]) /\
  deliverWake 2 (running options0 quiet)
  = Panic "index out of range" (running options0 quiet).
Proof.
  destruct (deliverWake_token 1 (running options0 quiet)) as [Hin _].
  destruct (deliverWake_token 2 (running options0 quiet)) as [_ Hout].
  split.
  - destruct Hin as (w' & Hrun & _); [evaluate |].
    exists w'. split; [exact Hrun |].
    assert (Hw : w' = world_of (deliverWake 1 (running options0 quiet)))
      by (rewrite Hrun; reflexivity).
    rewrite Hw. vm_compute. reflexivity.
  - apply Hout. right. vm_compute. discriminate.
Defined.

(** A wake that is already buffered when the lock is refused: the wait
    takes the token at once, without the timer and without the
    environment, and the next Lock() follows. *)
Theorem lockWorker_buffered_token (id : Z) (w : World) (l : Lock)
        (r : lock_reply) (rest : list lock_reply) :
  0 <= id ->
  workerChans (proc w) !! Z.to_nat id = Some true ->
  workerLocks (proc w) !! Z.to_nat id = Some l ->
  lockReplies (env w) = Busy :: r :: rest ->
  r <> Busy ->
  lockWorker id w =
  Ok tt {| proc := set_workerChans (<[Z.to_nat id := false]> (workerChans (proc w)))
                     (proc w);
           env := set_lockReplies rest (env w);
           trace := trace w ++ [LockCall (Z.to_nat id) Busy;
                                Wait (Z.to_nat id) lockTimeout Token;
                                LockCall (Z.to_nat id) r] ++ lockLog r |}.
Proof.
  intros Hid Hc Hl Hr Hnb. unfold lockWorker, index. run.
  destruct (id <? 0) eqn:E; [lia |]. rewrite Hc, Hl. run. rewrite Hr.
  cbn [length lockWorker_loop]. run. rewrite Hr. run.
  unfold waitSlot. run. rewrite Hc. run.
  destruct r as [| | e]; try congruence; envs; run;
    unfold set_lockReplies; simpl; rewrite <- ?app_assoc; reflexivity.
Qed.

Lemma lockWorker_buffered_token_witness :
  exists w1 w2,
    deliverWake 1 (running options0
                     (set_wakes [TimedOut] (set_lockReplies [Busy; Acquired] quiet)))
      = Ok tt w1 /\
    lockWorker 1 w1 = Ok tt w2 /\
    wakes (env w2) = [TimedOut] /\
    workerChans (proc w2) = [false; false].
Proof.
  eexists _, _. split; [vm_compute; reflexivity |].
  split.
  - apply (lockWorker_buffered_token 1 _
             {| keyQueue := "mail"; keySlot := 1; LockTimeout := 10 * time.Second |}
             Acquired []);
      [lia | vm_compute; reflexivity | vm_compute; reflexivity
       | vm_compute; reflexivity | discriminate].
  - split; vm_compute; reflexivity.
Defined.

Lemma deliverWake_buffers (id : Z) (w : World) :
  0 <= id < Z.of_nat (length (workerChans (proc w))) ->
  exists w', deliverWake id w = Ok tt w' /\
             workerChans (proc w') !! Z.to_nat id = Some true.
Proof.
  intros Hid. destruct (index_Some (workerChans (proc w)) id Hid) as [x Hx].
  unfold deliverWake. run. rewrite Hx. run.
  eexists. split; [reflexivity |]. run.
  apply list_lookup_insert_eq. lia.
Qed.

(** [unlockWorker] on a slot within the slices always returns: a failed
    Unlock() or Publish() is logged and nothing more.  The slot's index is
    published on the queue's ["worker-free"] topic, and the delivery of
    that payload by the reader buffers the wake for the same slot. *)
Theorem unlockWorker_wakes_slot (id : Z) (w : World) :
  slots_allocated (proc w) ->
  0 <= id < MaxWorkers (opt (proc w)) ->
  exists w1 w2 logs1 logs2,
    unlockWorker id w = Ok tt w1 /\
    proc w1 = proc w /\ env w1 = env w /\
    appended w w1
      (UnlockCall (Z.to_nat id) :: logs1
         ++ PublishCall (String.append (Name (q (proc w))) ":worker-free") id :: logs2) /\
    (length logs1 <= 1)%nat /\ (length logs2 <= 1)%nat /\
    deliverWake id w1 = Ok tt w2 /\
    workerChans (proc w2) !! Z.to_nat id = Some true.
Proof.
  intros [Hc Hl] Hid.
  destruct (index_Some (workerLocks (proc w)) id) as [l Hlk]; [lia |].
  unfold unlockWorker at 1. run. rewrite Hlk. run.
  set (logs1 := match Unlock (redis (proc w)) (Z.to_nat id) with
                | Some e => [Log (LogUnlockFailed e)] | None => [] end).
  set (logs2 := match Publish (redis (proc w)) (redisWorkerFreeChannel (proc w)) id with
                | Some e => [Log (LogPublishFailed e)] | None => [] end).
  set (w1 := {| proc := proc w; env := env w;
                trace := trace w ++ UnlockCall (Z.to_nat id) :: logs1
                           ++ PublishCall (redisWorkerFreeChannel (proc w)) id :: logs2 |}).
  destruct (deliverWake_buffers id w1) as (w2 & Hrun & Htok);
    [unfold w1; cbn [proc]; lia |].
  exists w1, w2, logs1, logs2.
  split.
  { unfold w1, logs1, logs2.
    destruct (Unlock (redis (proc w)) (Z.to_nat id));
      destruct (Publish (redis (proc w)) (redisWorkerFreeChannel (proc w)) id);
      run; cbn [app]; rewrite <- ?app_assoc; reflexivity. }
  split; [reflexivity |]. split; [reflexivity |]. split; [reflexivity |].
  split; [unfold logs1; destruct (Unlock _ _); simpl; lia |].
  split; [unfold logs2; destruct (Publish _ _ _); simpl; lia |].
  split; assumption.
Qed.

Lemma unlockWorker_wakes_slot_witness :
  exists w1 w2,
    unlockWorker 0 (running options0 quiet) = Ok tt w1 /\
    trace w1 = [UnlockCall 0; PublishCall "mail:worker-free" 0] /\
    deliverWake 0 w1 = Ok tt w2 /\
    workerChans (proc w2) !! 0%nat = Some true.
Proof.
  destruct (unlockWorker_wakes_slot 0 (running options0 quiet))
    as (w1 & w2 & logs1 & logs2 & Hrun & _ & _ & _ & _ & _ & Hd & Ht);
    [split; vm_compute; reflexivity | evaluate |].
  exists w1, w2. split; [exact Hrun |]. split; [| split; assumption].
  assert (Hw : w1 = world_of (unlockWorker 0 (running options0 quiet)))
    by (rewrite Hrun; reflexivity).
  rewrite Hw. vm_compute. reflexivity.
Defined.

End Slots.

(** ** Pause controller *)

Section Pause.

Import GoInt processor Runs Calls Samples.

(** Right after [resetPause] the processor is not paused, whatever the
    counters were; only [errCount] and [delayCount] change. *)
Theorem resetPause_clears_pause (w : World) :
  exists w',
    (resetPause;; paused) w = Ok 0 w' /\
    ctr (proc w') ErrCount = 0 /\ ctr (proc w') DelayCount = 0 /\
    (forall c, c <> ErrCount -> c <> DelayCount ->
               ctr (proc w') c = ctr (proc w) c) /\
    env w' = env w /\ trace w' = trace w.
Proof.
  unfold resetPause, paused. run. counters. run.
  eexists. split; [reflexivity |]. run. counters.
  split; [reflexivity |]. split; [reflexivity |].
  split; [| split; reflexivity].
  intros c H1 H2. rewrite !upd_other by congruence. reflexivity.
Qed.

(** [n] releases in a row for a reason that asks for the delay [d] of more
    than a minute raise [delayCount] by [n] and leave [d]'s whole seconds
    in [delaySec]. *)
Lemma releaseBackoff_times (msg : Message) (e : error) (d : Z) (n : nat) :
  asDelayer e = Some d ->
  time.Minute < d ->
  forall w : World,
    0 <= ctr (proc w) DelayCount ->
    ctr (proc w) DelayCount + Z.of_nat n < 2 ^ 32 ->
    exists w',
      times n (releaseBackoff msg (Some e)) w = Ok tt w' /\
      ctr (proc w') DelayCount = ctr (proc w) DelayCount + Z.of_nat n /\
      ((0 < n)%nat -> ctr (proc w') DelaySec = uint32 (d ÷ time.Second)) /\
      ctr (proc w') ErrCount = ctr (proc w) ErrCount /\
      trace w' = trace w.
Proof.
  intros He Hd.
  assert (Hstep : forall w : World,
            releaseBackoff msg (Some e) w =
            Ok d {| proc := set_ctr
                              (upd DelayCount (uint32 (ctr (proc w) DelayCount + 1))
                                 (upd DelaySec (uint32 (d ÷ time.Second)) (ctr (proc w))))
                              (proc w);
                    env := env w; trace := trace w |}).
  { intros w. unfold releaseBackoff. simpl. rewrite He.
    assert (Hgt : (d >? time.Minute) = true) by (apply Z.gtb_lt; lia).
    rewrite Hgt. run. counters. reflexivity. }
  induction n as [| n IH]; intros w H0 Hn.
  - exists w. simpl. repeat split; try lia.
  - cbn [times]. run. rewrite Hstep.
    match goal with
    | |- context [times n _ ?w1] =>
        destruct (IH w1) as (w' & Hrun & Hc & Hs & Herr & Htr)
    end.
    + run. counters. apply Z.mod_pos_bound. lia.
    + run. counters. rewrite uint32_id by (unfold in_uint32; lia). lia.
    + exists w'. split; [exact Hrun |]. revert Hc Hs Herr Htr. run. counters.
      rewrite uint32_id by (unfold in_uint32; lia).
      intros Hc Hs Herr Htr. repeat split; try assumption; try lia.
      intros _. destruct n as [| n'].
      * simpl in Hrun. injection Hrun as <-. reflexivity.
      * apply Hs. lia.
Qed.

(** The pause engages with the 101st long delay in a row: after [n]
    releases for a reason whose delay [d] exceeds a minute, [paused] is zero
    up to a hundred and the whole seconds of [d] from then on. *)
Theorem pause_after_delays (msg : Message) (e : error) (d : Z) (n : nat) (w : World) :
  asDelayer e = Some d ->
  time.Minute < d ->
  d ÷ time.Second < 2 ^ 32 ->
  ctr (proc w) DelayCount = 0 ->
  ctr (proc w) ErrCount <= 100 ->
  Z.of_nat n < 2 ^ 32 ->
  exists w',
    times n (releaseBackoff msg (Some e)) w = Ok tt w' /\
    trace w' = trace w /\
    paused w' = Ok (if 100 <? Z.of_nat n then (d ÷ time.Second) * time.Second else 0) w'.
Proof.
  intros He Hd Hsec Hc0 Herr Hn.
  destruct (releaseBackoff_times msg e d n He Hd w) as (w' & Hrun & Hc & Hs & He' & Htr);
    [lia | lia |].
  exists w'. split; [exact Hrun |]. split; [exact Htr |].
  unfold paused. run. rewrite Hc, Hc0, Z.add_0_l, Z.gtb_ltb.
  destruct (100 <? Z.of_nat n) eqn:E; run.
  - rewrite Hs by lia.
    assert (H0 : 0 <= d ÷ time.Second).
    { apply Z.quot_pos; [| reflexivity].
      assert (0 < time.Minute) by reflexivity. lia. }
    rewrite uint32_id by (split; assumption).
    rewrite int64_id; [reflexivity |].
    unfold in_int64, MinInt64, MaxInt64.
    assert (time.Second = 1000000000) by reflexivity. nia.
  - rewrite He', Z.gtb_ltb. destruct (100 <? ctr (proc w) ErrCount) eqn:E'; [lia |].
    reflexivity.
Qed.

(** A rate limit that asks for two minutes, met a hundred and one times. *)
Lemma pause_after_delays_witness :
  exists w',
    times 101 (releaseBackoff msg1 (Some (ErrOther "calm down" (Some (2 * time.Minute)))))
          (running options0 quiet) = Ok tt w' /\
    paused w' = Ok (120 * time.Second) w'.
Proof.
  assert (H1 : time.Minute < 2 * time.Minute) by evaluate.
  assert (H2 : (2 * time.Minute) ÷ time.Second < 2 ^ 32) by evaluate.
  assert (H3 : ctr (proc (running options0 quiet)) DelayCount = 0) by evaluate.
  assert (H4 : ctr (proc (running options0 quiet)) ErrCount <= 100) by evaluate.
  assert (H5 : Z.of_nat 101 < 2 ^ 32) by evaluate.
  destruct (pause_after_delays msg1 (ErrOther "calm down" (Some (2 * time.Minute)))
              (2 * time.Minute) 101 (running options0 quiet) eq_refl H1 H2 H3 H4 H5)
    as (w' & Hrun & _ & Hp).
  exists w'. split; [exact Hrun |]. rewrite Hp. f_equal.
Defined.

End Pause.

(** ** The paths of process *)

(** Membership in a trace that is written out. *)
Ltac in_list := solve [cbn [app In]; repeat first [left; reflexivity | right]].
Ltac not_in_list := solve [intros; cbn [app In]; intuition discriminate].
Ltac settle :=
  first [ reflexivity | lia | left; reflexivity | right; reflexivity
        | in_list | eexists; in_list | not_in_list ].

Section ProcessPaths.

Import GoInt processor Runs entrypoints Samples.

(** The slot phase of [process]: it leaves the counters and WaitGroups
    alone, and its events are those of the slot lock. *)
Lemma lock_phase_inv (workerId : Z) (b : bool) (w : World) :
  match (if b then lockWorker workerId else mret tt) w with
  | Ok _ w1 | Pending w1 =>
      lock_frame (proc w) (proc w1) /\
      exists levs, Forall lockish levs /\ appended w w1 levs
  | Panic _ w1 => w1 = w
  end.
Proof.
  destruct b.
  - pose proof (lockWorker_inv workerId w) as H.
    destruct (lockWorker workerId w) as [[] w1 | why w1 | w1].
    + destruct H as (Hfr & levs & Hl & Happ). split; [exact Hfr |].
      exists levs. split; [eapply lock_events_lockish; eassumption | exact Happ].
    + apply H.
    + destruct H as (Hfr & levs & Hl & Happ). split; [exact Hfr |].
      exists levs. split; [eapply on_slot_lockish; eassumption | exact Happ].
  - run. split; [apply lock_frame_refl |]. exists []. split; [constructor |].
    unfold appended. rewrite app_nil_r. reflexivity.
Qed.

(** What [process] does to the counters and to the WaitGroup from the call
    of the handler on. *)
Lemma process_tail_effect (p : Processor) (workerId : Z) (msg : Message)
      (w1 w' : World) (r : option error) :
  process_tail p workerId msg w1 = Ok r w' ->
  ctr (proc w') InFlight = decr32 (ctr (proc w1) InFlight) /\
  (ctr (proc w') ErrCount = ctr (proc w1) ErrCount \/ ctr (proc w') ErrCount = 0) /\
  exists evs,
    appended w1 w' (Handle msg :: evs) /\
    match failure (handler p msg) with
    | None =>
        r = None /\
        ctr (proc w') Processed = incr32 (ctr (proc w1) Processed) /\
        ctr (proc w') Retries = ctr (proc w1) Retries /\
        ctr (proc w') Fails = ctr (proc w1) Fails /\
        ctr (proc w') ErrCount = 0 /\ ctr (proc w') DelayCount = 0 /\
        wg (proc w') = wg (proc w1) /\
        ctr (proc w') Deleting = incr32 (ctr (proc w1) Deleting) /\
        In (BatchAdd msg) evs /\
        (forall m d, ~ In (ReleaseCall m d) evs) /\
        (forall m, ~ In (Fallback m) evs)
    | Some err =>
        r = Some err /\
        ctr (proc w') Processed = ctr (proc w1) Processed /\
        if ReservedCount msg <? RetryLimit (opt p)
        then wg (proc w') = wg (proc w1) - 1 /\
             ctr (proc w') Deleting = ctr (proc w1) Deleting /\
             exists d, In (ReleaseCall msg d) evs
        else wg (proc w') = wg (proc w1) /\
             ctr (proc w') Deleting = incr32 (ctr (proc w1) Deleting) /\
             In (BatchAdd msg) evs
    end.
Proof.
  unfold process_tail.
  unfold unlockWorker, release, releaseBackoff, delete, resetPause, updateAvgDuration.
  crunch; try discriminate.
  all: intros [= <- <-]; cbn [proc]; run; counters; unfold decr32, incr32.
  all: split; [reflexivity |]; split; [first [left; reflexivity | right; reflexivity] |].
  all: eexists; (split; [unfold appended; cbn [trace]; rewrite <- ?app_assoc; reflexivity |]).
  all: repeat split; settle.
Qed.


Lemma decr32_incr32 (c : Z) : in_uint32 c -> decr32 (incr32 c) = c.
Proof.
  unfold in_uint32, decr32, incr32, uint32, uwrap. intros H.
  rewrite Zplus_mod_idemp_l.
  replace (c + 1 + (2 ^ 32 - 1)) with (c + 1 * 2 ^ 32) by lia.
  rewrite Z.mod_add by lia. apply Z.mod_small. lia.
Qed.

(** What one call of [process] does to the accounting, whichever path it
    takes: [inFlight] goes down by one, [errCount] stays or is reset, and
    the message is either released, which settles it in the WaitGroup, or
    handed to the batcher, which leaves it counted there and in
    [deleting]. *)
Lemma process_effect (workerId : Z) (msg : Message) (w w' : World) (r : option error) :
  process workerId msg w = Ok r w' ->
  ctr (proc w') InFlight = decr32 (ctr (proc w) InFlight) /\
  (ctr (proc w') ErrCount = ctr (proc w) ErrCount \/ ctr (proc w') ErrCount = 0) /\
  exists evs,
    appended w w' evs /\
    ((wg (proc w') = wg (proc w) - 1 /\
      ctr (proc w') Deleting = ctr (proc w) Deleting /\
      exists d, In (ReleaseCall msg d) evs) \/
     (wg (proc w') = wg (proc w) /\
      ctr (proc w') Deleting = incr32 (ctr (proc w) Deleting) /\
      In (BatchAdd msg) evs)).
Proof.
  destruct (Z_le_gt_dec (Delay msg) 0) as [Hdue | Hlate].
  - rewrite (process_due _ _ _ Hdue). cbv [mbind M_bind].
    pose proof (lock_phase_inv workerId
                  ((workerId >=? 0) && (MaxWorkers (opt (proc w)) >? 0)) w) as Hphase.
    destruct ((if (workerId >=? 0) && (MaxWorkers (opt (proc w)) >? 0)
               then lockWorker workerId else mret ()) w) as [[] w1 | |];
      try discriminate.
    destruct Hphase as (Hfr & levs & Hlevs & Happ). intros Ht.
    destruct (process_tail_effect _ _ _ _ _ _ Ht) as (Hin & Herr & evs & Happ' & Hcase).
    destruct Hfr as (_ & _ & _ & _ & _ & Hwg & _ & _ & _ & Hctr & _).
    rewrite Hctr in Hin, Herr. split; [exact Hin |]. split; [exact Herr |].
    exists (levs ++ Handle msg :: evs). split.
    { unfold appended in *. rewrite Happ', Happ, <- app_assoc. reflexivity. }
    destruct (failure (handler (proc w) msg)) as [err |].
    + destruct Hcase as (_ & _ & Hcase).
      destruct (ReservedCount msg <? RetryLimit (opt (proc w))).
      * left. destruct Hcase as (H1 & H2 & d & H3). rewrite H1, H2, Hwg, Hctr.
        repeat split. exists d. apply in_or_app. right. right. exact H3.
      * right. destruct Hcase as (H1 & H2 & H3). rewrite H1, H2, Hwg, Hctr.
        repeat split. apply in_or_app. right. right. exact H3.
    + right. destruct Hcase as (_ & _ & _ & _ & _ & _ & H1 & H2 & H3 & _).
      rewrite H1, H2, Hwg, Hctr. repeat split.
      apply in_or_app. right. right. exact H3.
  - unfold process. assert (E : (Delay msg >? 0) = true) by (apply Z.gtb_lt; lia).
    rewrite E. unfold release, releaseBackoff. simpl option_bind. cbv iota.
    rewrite E. crunch; try discriminate.
    all: intros [= <- <-]; cbn [proc]; run; counters; unfold decr32.
    all: split; [reflexivity |]; split; [left; reflexivity |].
    all: eexists; (split; [unfold appended; cbn [trace]; rewrite <- ?app_assoc;
                           reflexivity |]).
    all: left; repeat split; settle.
Qed.

(** A message that is not due yet ([Delay > 0]) goes back to the queue with
    its own delay: the handler is not called, no slot is locked, the
    counters of outcomes stay, and the call returns nil. *)
Theorem process_not_due (workerId : Z) (msg : Message) (w : World) :
  0 < Delay msg ->
  1 <= wg (proc w) ->
  exists w' logs,
    process workerId msg w = Ok None w' /\
    appended w w' (ReleaseCall msg (Delay msg) :: logs) /\
    Forall (fun ev => exists e, ev = Log (LogReleaseFailed e)) logs /\
    (forall c, c <> InFlight -> ctr (proc w') c = ctr (proc w) c) /\
    ctr (proc w') InFlight = decr32 (ctr (proc w) InFlight) /\
    wg (proc w') = wg (proc w) - 1 /\
    env w' = env w.
Proof.
  intros Hlate Hwg. unfold process.
  assert (E : (Delay msg >? 0) = true) by (apply Z.gtb_lt; lia).
  rewrite E. unfold release, releaseBackoff. run. cbn [option_bind]. run.
  rewrite E. run.
  assert (Ew : (wg (proc w) + -1 <? 0) = false) by (apply Z.ltb_ge; lia).
  destruct (Release (q (proc w)) msg (Delay msg)) as [e |]; run; rewrite Ew; run;
    [eexists; exists [Log (LogReleaseFailed e)] | eexists; exists []];
    (split; [reflexivity |]); run; counters;
    (split; [unfold appended; rewrite <- ?app_assoc; reflexivity |]);
    (split; [repeat first [apply Forall_nil_2 | apply Forall_cons_2; [eexists; reflexivity |]] |]);
    (split; [intros c Hc; rewrite upd_other by congruence; reflexivity |]);
    (split; [reflexivity |]); (split; [lia | reflexivity]).
Qed.

Lemma process_not_due_witness :
  exists w',
    process 0 {| Id := 7; Delay := 3 * time.Second; ReservedCount := 0 |}
            (world_of (Add msg1 (running options0 quiet))) = Ok None w' /\
    trace w' = [ChanSend msg1;
                ReleaseCall {| Id := 7; Delay := 3 * time.Second; ReservedCount := 0 |}
                            (3 * time.Second)].
Proof.
  destruct (process_not_due 0 {| Id := 7; Delay := 3 * time.Second; ReservedCount := 0 |}
              (world_of (Add msg1 (running options0 quiet))))
    as (w' & logs & Hrun & _); [evaluate | evaluate |].
  exists w'. split; [exact Hrun |].
  assert (Hw : w' = world_of (process 0 {| Id := 7; Delay := 3 * time.Second;
                                           ReservedCount := 0 |}
                                (world_of (Add msg1 (running options0 quiet)))))
    by (rewrite Hrun; reflexivity).
  rewrite Hw. vm_compute. reflexivity.
Defined.

(** A due message whose handler succeeds, in a call of [process] that
    returns: [processed] goes up by one, the pause counters are reset, the
    message is handed to the batcher and neither released nor passed to the
    fallback handler, and the call returns nil. *)
Theorem process_success (workerId : Z) (msg : Message) (w w' : World)
        (r : option error) :
  Delay msg <= 0 ->
  failure (handler (proc w) msg) = None ->
  process workerId msg w = Ok r w' ->
  r = None /\
  ctr (proc w') Processed = incr32 (ctr (proc w) Processed) /\
  ctr (proc w') Retries = ctr (proc w) Retries /\
  ctr (proc w') Fails = ctr (proc w) Fails /\
  ctr (proc w') ErrCount = 0 /\ ctr (proc w') DelayCount = 0 /\
  ctr (proc w') Deleting = incr32 (ctr (proc w) Deleting) /\
  wg (proc w') = wg (proc w) /\
  exists evs,
    appended w w' evs /\
    In (Handle msg) evs /\ In (BatchAdd msg) evs /\
    (forall m d, ~ In (ReleaseCall m d) evs) /\
    (forall m, ~ In (Fallback m) evs).
Proof.
  intros Hdue Hf. rewrite (process_due _ _ _ Hdue). cbv [mbind M_bind].
  pose proof (lock_phase_inv workerId
                ((workerId >=? 0) && (MaxWorkers (opt (proc w)) >? 0)) w) as Hphase.
  destruct ((if (workerId >=? 0) && (MaxWorkers (opt (proc w)) >? 0)
             then lockWorker workerId else mret ()) w) as [[] w1 | |];
    try discriminate.
  destruct Hphase as (Hfr & levs & Hlevs & Happ). intros Ht.
  destruct (process_tail_effect _ _ _ _ _ _ Ht) as (_ & _ & evs & Happ' & Hcase).
  rewrite Hf in Hcase.
  destruct Hcase as (-> & H1 & H2 & H3 & H4 & H5 & H6 & H7 & H8 & H9 & H10).
  destruct Hfr as (_ & _ & _ & _ & _ & Hwg & _ & _ & _ & Hctr & _).
  rewrite Hctr in *. rewrite Hwg in *.
  repeat (split; [assumption || reflexivity |]).
  exists (levs ++ Handle msg :: evs).
  assert (Hquiet : forall ev, In ev levs -> lockish ev).
  { rewrite Forall_forall in Hlevs. intros ev Hin. apply Hlevs.
    apply list_elem_of_In. exact Hin. }
  split; [unfold appended in *; rewrite Happ', Happ, <- app_assoc; reflexivity |].
  split; [apply in_or_app; right; left; reflexivity |].
  split; [apply in_or_app; right; right; exact H8 |].
  split.
  - intros m d Hin. apply in_app_or in Hin. destruct Hin as [Hin | [Hin | Hin]].
    + apply (Hquiet _ Hin).
    + discriminate.
    + apply (H9 m d Hin).
  - intros m Hin. apply in_app_or in Hin. destruct Hin as [Hin | [Hin | Hin]].
    + apply (Hquiet _ Hin).
    + discriminate.
    + apply (H10 m Hin).
Qed.

Lemma process_success_witness :
  let w := world_of (Add msg0 (running options1 quiet)) in
  let w' := world_of (process 0 msg0 w) in
  ctr (proc w') Processed = 1 /\ ctr (proc w') Fails = 0.
Proof.
  cbv zeta.
  assert (Hdue : Delay msg0 <= 0) by evaluate.
  assert (Hf : failure (handler (proc (world_of (Add msg0 (running options1 quiet)))) msg0)
               = None) by evaluate.
  assert (Hrun : process 0 msg0 (world_of (Add msg0 (running options1 quiet)))
                 = Ok None (world_of (process 0 msg0
                                        (world_of (Add msg0 (running options1 quiet))))))
    by evaluate.
  destruct (process_success 0 msg0 _ _ None Hdue Hf Hrun)
    as (_ & Hp & _ & Hfl & _).
  rewrite Hp, Hfl. split; vm_compute; reflexivity.
Defined.

(** [Process], the entry that bypasses the internal queue, never takes part
    in the slot coordination, whatever [MaxWorkers] says: it makes no
    Lock(), wait, Unlock() or publish, asks the lock service nothing, and is
    never left waiting. *)
Theorem Process_never_locks (msg : Message) (w : World) :
  exists evs,
    (forall w', Process msg w <> Pending w') /\
    appended w (world_of (Process msg w)) evs /\
    Forall off_slots evs /\
    (forall ch slot, ~ In (PublishCall ch slot) evs) /\
    env (world_of (Process msg w)) = env w.
Proof.
  unfold Process, process.
  change (-1 >=? 0) with false. cbn [andb].
  unfold release, releaseBackoff, delete, resetPause, updateAvgDuration.
  crunch.
  all: cbn [world_of env trace].
  all: first
    [ exists []; split; [discriminate |];
      split; [unfold appended; rewrite app_nil_r; reflexivity |];
      split; [constructor |]; split; [not_in_list | reflexivity]
    | eexists; split; [discriminate |];
      split; [unfold appended; rewrite <- ?app_assoc; reflexivity |];
      split; [cbn [app]; repeat constructor |]; split; [not_in_list | reflexivity] ].
Qed.

(** [Process] does not count its message in [inFlight], yet the release or
    delete it ends with counts it out: every returning call leaves
    [inFlight] one lower, modulo 2^32, so that zero becomes 4294967295. *)
Theorem Process_uncounted (msg : Message) (w w' : World) (r : option error) :
  Process msg w = Ok r w' ->
  ctr (proc w') InFlight = decr32 (ctr (proc w) InFlight) /\
  (ctr (proc w) InFlight = 0 -> ctr (proc w') InFlight = 4294967295).
Proof.
  unfold Process. run. destruct (wg (proc w) + 1 <? 0); [discriminate |]. run.
  intros H. destruct (process_effect _ _ _ _ _ H) as (Hin & _).
  revert Hin. run. intros Hin. split; [exact Hin |].
  intros H0. rewrite Hin, H0. reflexivity.
Qed.

Lemma Process_uncounted_witness :
  ctr (proc (world_of (Process msg0 (fresh options1 quiet)))) InFlight = 4294967295.
Proof.
  assert (Hrun : Process msg0 (fresh options1 quiet)
                 = Ok None (world_of (Process msg0 (fresh options1 quiet))))
    by evaluate.
  destruct (Process_uncounted msg0 _ _ None Hrun) as [_ H].
  apply H. evaluate.
Defined.

(** [process] never raises [errCount]: a returning call leaves it as it
    was or resets it to zero. *)
Theorem process_never_raises_errCount (workerId : Z) (msg : Message)
        (w w' : World) (r : option error) :
  process workerId msg w = Ok r w' ->
  ctr (proc w') ErrCount = ctr (proc w) ErrCount \/ ctr (proc w') ErrCount = 0.
Proof.
  intros H. destruct (process_effect _ _ _ _ _ H) as (_ & Herr & _). exact Herr.
Qed.

Lemma process_never_raises_errCount_witness :
  ctr (proc (world_of (process 0 msg1 (world_of (Add msg1 (running options1 quiet))))))
      ErrCount = 0.
Proof.
  assert (Hrun : process 0 msg1 (world_of (Add msg1 (running options1 quiet)))
                 = Ok (Some boom)
                      (world_of (process 0 msg1
                                   (world_of (Add msg1 (running options1 quiet))))))
    by evaluate.
  destruct (process_never_raises_errCount 0 msg1 _ _ _ Hrun) as [H | H].
  - rewrite H. evaluate.
  - exact H.
Defined.

Lemma wgDoneTimes_run (n : nat) :
  forall w : World,
    Z.of_nat n <= wg (proc w) ->
    wgDoneTimes n w =
    Ok tt {| proc := set_wg (wg (proc w) - Z.of_nat n) (proc w);
             env := env w; trace := trace w |}.
Proof.
  induction n as [| n IH]; intros w Hn.
  - simpl. rewrite Z.sub_0_r. destruct w as [[] ? ?]. reflexivity.
  - cbn [wgDoneTimes]. run.
    destruct (wg (proc w) + -1 <? 0) eqn:E; [lia |]. run.
    rewrite IH by (cbn [proc wg set_wg]; lia). run.
    unfold set_wg. cbn [q opt redis handler fallbackHandler wg workersWG stopWorkers
                        workerChans workerLocks ctr].
    do 3 f_equal. lia.
Qed.

(** The batcher's callback settles a batch whether or not the queue's
    [DeleteBatch] succeeded: a failure is logged, [deleting] goes down by
    the size of the batch (modulo 2^32) and the WaitGroup is released once
    per message.  A batch larger than the WaitGroup's count is a panic. *)
Theorem deleteBatch_settles (ms : list Message) (w : World) :
  (Z.of_nat (length ms) <= wg (proc w) ->
     exists w' logs,
       deleteBatch ms w = Ok tt w' /\
       appended w w' (DeleteBatchCall ms :: logs) /\
       logs = match DeleteBatch (q (proc w)) ms with
              | Some e => [Log (LogDeleteBatchFailed e)]
              | None => []
              end /\
       wg (proc w') = wg (proc w) - Z.of_nat (length ms) /\
       ctr (proc w') Deleting = uint32 (ctr (proc w) Deleting - Z.of_nat (length ms)) /\
       (forall c, c <> Deleting -> ctr (proc w') c = ctr (proc w) c)) /\
  (0 <= wg (proc w) < Z.of_nat (length ms) ->
     exists w', deleteBatch ms w = Panic "sync: negative WaitGroup counter" w').
Proof.
  split.
  - intros Hn. unfold deleteBatch. run.
    destruct (DeleteBatch (q (proc w)) ms) as [e |]; run;
      (rewrite wgDoneTimes_run by (cbn [proc wg set_ctr]; lia));
      eexists; eexists; (split; [reflexivity |]); run; counters;
      (split; [unfold appended; rewrite <- ?app_assoc; reflexivity |]);
      (split; [reflexivity |]); (split; [reflexivity |]);
      (split; [| intros c Hc; rewrite upd_other by congruence; reflexivity]);
      unfold uint32, uwrap;
      replace (ctr (proc w) Deleting + (2 ^ 32 - Z.of_nat (length ms)))
        with (ctr (proc w) Deleting - Z.of_nat (length ms) + 1 * 2 ^ 32) by lia;
      apply Z.mod_add; lia.
  - intros Hn. unfold deleteBatch. run.
    assert (Hp : forall (n : nat) (w0 : World),
               0 <= wg (proc w0) < Z.of_nat n ->
               exists w', wgDoneTimes n w0 = Panic "sync: negative WaitGroup counter" w').
    { induction n as [| n IH]; intros w0 H0; [simpl in H0; lia |].
      cbn [wgDoneTimes]. run.
      destruct (wg (proc w0) + -1 <? 0) eqn:E; run.
      - eexists. reflexivity.
      - apply IH. cbn [proc wg set_wg]. lia. }
    destruct (DeleteBatch (q (proc w)) ms) as [e |]; run;
      match goal with
      | |- context [wgDoneTimes _ ?w0] =>
          destruct (Hp (length ms) w0) as [w' Hw']; [cbn [proc wg set_ctr]; lia |];
          rewrite Hw'; exists w'; reflexivity
      end.
Qed.

Lemma deleteBatch_settles_witness :
  exists w',
    deleteBatch [msg0] (world_of (process 0 msg0 (world_of (Add msg0 (running options1 quiet)))))
      = Ok tt w' /\
    wg (proc w') = 0 /\ ctr (proc w') Deleting = 0.
Proof.
  destruct (deleteBatch_settles [msg0]
              (world_of (process 0 msg0 (world_of (Add msg0 (running options1 quiet))))))
    as [H _].
  destruct H as (w' & logs & Hrun & _ & _ & Hwg & Hdel & _); [evaluate |].
  exists w'. split; [exact Hrun |]. rewrite Hwg, Hdel. split; evaluate.
Defined.


(** The accounting of one message balances.  After [Add] and [process],
    [inFlight] is back where it was.  A released message is settled in the
    WaitGroup at once; a message handed to the batcher stays counted in the
    WaitGroup and in [deleting] until the batcher's callback runs, which
    restores both. *)
Theorem message_accounting (workerId : Z) (msg : Message) (w w2 : World)
        (r : option error) :
  0 <= wg (proc w) ->
  in_uint32 (ctr (proc w) InFlight) ->
  in_uint32 (ctr (proc w) Deleting) ->
  (Add msg;; process workerId msg) w = Ok r w2 ->
  ctr (proc w2) InFlight = ctr (proc w) InFlight /\
  ((wg (proc w2) = wg (proc w) /\ ctr (proc w2) Deleting = ctr (proc w) Deleting) \/
   (wg (proc w2) = wg (proc w) + 1 /\
    ctr (proc w2) Deleting = incr32 (ctr (proc w) Deleting) /\
    exists w3,
      deleteBatch [msg] w2 = Ok tt w3 /\
      wg (proc w3) = wg (proc w) /\
      ctr (proc w3) Deleting = ctr (proc w) Deleting /\
      ctr (proc w3) InFlight = ctr (proc w) InFlight)).
Proof.
  intros Hwg Hin Hdel. unfold Add. run.
  destruct (wg (proc w) + 1 <? 0) eqn:E; [lia |]. run.
  unfold send. run.
  destruct (Z.of_nat (length (ch (proc w))) <? BufferSize (opt (proc w)));
    [| discriminate].
  run. intros H.
  destruct (process_effect _ _ _ _ _ H) as (Hfl & _ & evs & _ & Hcase).
  revert Hfl Hcase. run. counters. intros Hfl Hcase.
  assert (Hback : ctr (proc w2) InFlight = ctr (proc w) InFlight).
  { rewrite Hfl. apply (decr32_incr32 _ Hin). }
  split; [exact Hback |].
  destruct Hcase as [(H1 & H2 & _) | (H1 & H2 & _)].
  - left. split; [lia | exact H2].
  - right. split; [exact H1 |]. split; [exact H2 |].
    unfold deleteBatch. cbn [length wgDoneTimes]. run.
    assert (Ew : (wg (proc w2) + -1 <? 0) = false) by (apply Z.ltb_ge; lia).
    destruct (DeleteBatch (q (proc w2)) [msg]); run; rewrite Ew; run;
      eexists; (split; [reflexivity |]); run; counters;
      (split; [lia |]); (split; [| exact Hback]);
      rewrite H2; change (2 ^ 32 - Z.of_nat 1) with (2 ^ 32 - 1);
      apply (decr32_incr32 _ Hdel).
Qed.

Lemma message_accounting_witness :
  let w := running options1 quiet in
  let w2 := world_of ((Add msg0;; process 0 msg0) w) in
  ctr (proc w2) InFlight = 0 /\
  exists w3, deleteBatch [msg0] w2 = Ok tt w3 /\ wg (proc w3) = 0.
Proof.
  cbv zeta.
  assert (H1 : 0 <= wg (proc (running options1 quiet))) by evaluate.
  assert (H2 : in_uint32 (ctr (proc (running options1 quiet)) InFlight)) by evaluate.
  assert (H3 : in_uint32 (ctr (proc (running options1 quiet)) Deleting)) by evaluate.
  assert (Hrun : (Add msg0;; process 0 msg0) (running options1 quiet)
                 = Ok None (world_of ((Add msg0;; process 0 msg0) (running options1 quiet))))
    by evaluate.
  destruct (message_accounting 0 msg0 _ _ None H1 H2 H3 Hrun) as [Hin Hcase].
  split; [rewrite Hin; evaluate |].
  destruct Hcase as [[Hwg _] | (_ & _ & w3 & Hd & Hwg & _)].
  - exfalso. revert Hwg. vm_compute. discriminate.
  - exists w3. split; [exact Hd |]. rewrite Hwg. evaluate.
Defined.
End ProcessPaths.

(** ** Purge, fetchMessages and ProcessOne *)

Section EntryPoints.

Import GoInt processor Runs entrypoints Samples.

Lemma uint32_add_l (a b : Z) : uint32 (uint32 a + b) = uint32 (a + b).
Proof. unfold uint32, uwrap. apply Zplus_mod_idemp_l. Qed.

Lemma uint32_sub_l (a b : Z) : uint32 (uint32 a - b) = uint32 (a - b).
Proof. unfold uint32, uwrap. apply Zminus_mod_idemp_l. Qed.

(** The loop of [Purge] on a channel that buffers [ms]. *)
Lemma Purge_loop_run (ms : list Message) :
  forall (fuel : nat) (w : World),
    ch (proc w) = ms ->
    (length ms < fuel)%nat ->
    exists w',
      Purge_loop fuel w = Ok None w' /\
      ch (proc w') = [] /\
      appended w w' (map BatchAdd ms) /\
      env w' = env w /\ wg (proc w') = wg (proc w) /\
      (in_uint32 (ctr (proc w) InFlight) ->
       ctr (proc w') InFlight = uint32 (ctr (proc w) InFlight - Z.of_nat (length ms))) /\
      (in_uint32 (ctr (proc w) Deleting) ->
       ctr (proc w') Deleting = uint32 (ctr (proc w) Deleting + Z.of_nat (length ms))) /\
      ctr (proc w') Processed = ctr (proc w) Processed /\
      ctr (proc w') Retries = ctr (proc w) Retries /\
      ctr (proc w') Fails = ctr (proc w) Fails /\
      (ms <> [] -> ctr (proc w') ErrCount = 0 /\ ctr (proc w') DelayCount = 0).
Proof.
  induction ms as [| m ms IH]; intros fuel w Hch Hfuel;
    (destruct fuel as [| fuel]; [simpl in Hfuel; lia |]).
  - exists w. cbn [Purge_loop map length]. unfold tryReceive. run. rewrite Hch. run.
    unfold appended. rewrite app_nil_r, ?world_eta.
    split; [reflexivity |]. split; [first [exact Hch | reflexivity] |].
    split; [reflexivity |].
    split; [reflexivity |]. split; [reflexivity |].
    split; [intros H; rewrite Z.sub_0_r, uint32_id by exact H; reflexivity |].
    split; [intros H; rewrite Z.add_0_r, uint32_id by exact H; reflexivity |].
    repeat split; congruence.
  - cbn [Purge_loop]. unfold tryReceive. run. rewrite Hch. run.
    unfold delete, resetPause. run. counters.
    match goal with
    | |- context [Purge_loop fuel ?w1] =>
        destruct (IH fuel w1)
          as (w' & Hrun & Hnil & Happ & Henv & Hwg & Hin & Hdel & Hp & Hr & Hf & Hz);
        [reflexivity | simpl in Hfuel; lia |];
        set (w0 := w1) in *
    end.
    exists w'. rewrite Hrun. split; [reflexivity |]. split; [exact Hnil |].
    revert Happ Henv Hwg Hin Hdel Hp Hr Hf Hz. unfold w0, appended. run. counters.
    intros Happ Henv Hwg Hin Hdel Hp Hr Hf Hz.
    split; [rewrite Happ, <- app_assoc; reflexivity |].
    split; [exact Henv |]. split; [exact Hwg |].
    split.
    { intros _. rewrite Hin by apply uint32_range.
      rewrite uint32_sub_l. unfold uint32, uwrap. cbn [length].
      replace (ctr (proc w) InFlight + (2 ^ 32 - 1) - Z.of_nat (length ms))
        with (ctr (proc w) InFlight - Z.of_nat (S (length ms)) + 1 * 2 ^ 32) by lia.
      apply Z.mod_add. lia. }
    split.
    { intros _. rewrite Hdel by apply uint32_range.
      rewrite uint32_add_l. f_equal. cbn [length]. lia. }
    split; [exact Hp |]. split; [exact Hr |]. split; [exact Hf |].
    intros _. destruct ms as [| m' ms'].
    + destruct fuel as [| fuel']; [simpl in Hfuel; lia |].
      cbn [Purge_loop] in Hrun. unfold tryReceive in Hrun. revert Hrun. run.
      intros [= <-]. split; reflexivity.
    + apply Hz. discriminate.
Qed.

(** [Purge] takes every message off the channel and hands it to the
    batcher, in order, with no reason: the handler is never called and
    nothing is released; [inFlight] goes down and [deleting] up by the
    number of messages, the outcome counters stay, and a purge of at least
    one message resets the pause. *)
Theorem Purge_deletes (w : World) :
  exists w',
    Purge w = Ok None w' /\
    ch (proc w') = [] /\
    appended w w' (map BatchAdd (ch (proc w))) /\
    env w' = env w /\ wg (proc w') = wg (proc w) /\
    (in_uint32 (ctr (proc w) InFlight) ->
     ctr (proc w') InFlight
     = uint32 (ctr (proc w) InFlight - Z.of_nat (length (ch (proc w))))) /\
    (in_uint32 (ctr (proc w) Deleting) ->
     ctr (proc w') Deleting
     = uint32 (ctr (proc w) Deleting + Z.of_nat (length (ch (proc w))))) /\
    ctr (proc w') Processed = ctr (proc w) Processed /\
    ctr (proc w') Retries = ctr (proc w) Retries /\
    ctr (proc w') Fails = ctr (proc w) Fails /\
    (ch (proc w) <> [] -> ctr (proc w') ErrCount = 0 /\ ctr (proc w') DelayCount = 0).
Proof.
  unfold Purge. run.
  apply (Purge_loop_run (ch (proc w)) (S (length (ch (proc w)))) w eq_refl).
  lia.
Qed.

(** [fetchMessages]: a failed [ReserveN] adds nothing, whatever came with
    the error; a successful one, with room in the channel for what it
    brought, adds the whole batch, in order, and counts it in [inFlight]
    and in the WaitGroup. *)
Theorem fetchMessages_adds (w : World) (rep : reserve_reply)
        (rest : list reserve_reply) :
  reserves (env w) = rep :: rest ->
  0 <= wg (proc w) ->
  in_uint32 (ctr (proc w) InFlight) ->
  (rerr rep = None -> room (proc w) (length (msgs rep))) ->
  match rerr rep with
  | Some e =>
      fetchMessages w =
      Ok (0, Some e)
         {| proc := proc w; env := set_reserves rest (env w);
            trace := trace w ++ [Reserve (BufferSize (opt (proc w)))] |}
  | None =>
      exists w',
        fetchMessages w = Ok (Z.of_nat (length (msgs rep)), None) w' /\
        appended w w' (Reserve (BufferSize (opt (proc w))) :: map ChanSend (msgs rep)) /\
        ch (proc w') = ch (proc w) ++ msgs rep /\
        reserves (env w') = rest /\
        wg (proc w') = wg (proc w) + Z.of_nat (length (msgs rep)) /\
        ctr (proc w') InFlight
        = uint32 (ctr (proc w) InFlight + Z.of_nat (length (msgs rep))) /\
        (forall c, c <> InFlight -> ctr (proc w') c = ctr (proc w) c)
  end.
Proof.
  intros Hres Hwg Hin Hroom. unfold fetchMessages. run. rewrite Hres. run.
  destruct rep as [ms [e |]]; cbn [rerr msgs] in *; run; [reflexivity |].
  specialize (Hroom eq_refl).
  assert (Hadd : forall (l : list Message) (w0 : World),
            0 <= wg (proc w0) ->
            room (proc w0) (length l) ->
            exists w',
              addAll l w0 = Ok tt w' /\
              env w' = env w0 /\
              trace w' = trace w0 ++ map ChanSend l /\
              ch (proc w') = ch (proc w0) ++ l /\
              wg (proc w') = wg (proc w0) + Z.of_nat (length l) /\
              (in_uint32 (ctr (proc w0) InFlight) ->
               ctr (proc w') InFlight
               = uint32 (ctr (proc w0) InFlight + Z.of_nat (length l))) /\
              (forall c, c <> InFlight -> ctr (proc w') c = ctr (proc w0) c)).
  { induction l as [| m l IH]; intros w0 H0 Hr0.
    - exists w0. cbn [addAll map length]. rewrite !app_nil_r, Z.add_0_r.
      repeat split; try reflexivity.
      intros H. rewrite Z.add_0_r, uint32_id by exact H. reflexivity.
    - unfold room in Hr0. cbn [length] in Hr0.
      cbn [addAll]. unfold Add. run.
      destruct (wg (proc w0) + 1 <? 0) eqn:E; [lia |]. run.
      unfold send. run.
      destruct (Z.of_nat (length (ch (proc w0))) <? BufferSize (opt (proc w0))) eqn:Er;
        [| lia].
      run.
      match goal with
      | |- context [addAll l ?w1] =>
          destruct (IH w1) as (w' & Hrun & Henv & Htr & Hch & Hw & Hfl & Hoth);
          [ cbn [proc wg set_ctr set_wg set_ch]; lia
          | unfold room; cbn [proc]; run; rewrite length_app; cbn [length]; lia |]
      end.
      exists w'. rewrite Hrun. split; [reflexivity |].
      revert Henv Htr Hch Hw Hfl Hoth. run. counters. intros Henv Htr Hch Hw Hfl Hoth.
      split; [exact Henv |].
      split; [rewrite Htr, <- app_assoc; reflexivity |].
      split; [rewrite Hch, <- app_assoc; reflexivity |].
      split; [rewrite Hw; cbn [length]; lia |].
      split.
      + intros _. rewrite Hfl by apply uint32_range. rewrite uint32_add_l.
        f_equal. cbn [length]. lia.
      + intros c Hc. rewrite Hoth by exact Hc. rewrite upd_other by congruence.
        reflexivity. }
  match goal with
  | |- context [addAll ms ?w1] =>
      destruct (Hadd ms w1) as (w' & Hrun & Henv & Htr & Hch & Hw & Hfl & Hoth);
      [exact Hwg | exact Hroom |]
  end.
  rewrite Hrun. exists w'. split; [reflexivity |].
  revert Henv Htr Hch Hw Hfl Hoth. run. envs. intros Henv Htr Hch Hw Hfl Hoth.
  split; [unfold appended; rewrite Htr, <- app_assoc; reflexivity |].
  split; [exact Hch |].
  split; [rewrite Henv; reflexivity |].
  split; [exact Hw |]. split; [apply Hfl; exact Hin | exact Hoth].
Qed.

(** A batch of two for a channel of ten that is empty. *)
Lemma fetchMessages_adds_witness :
  exists w',
    fetchMessages (running options1
                     (set_reserves [ {| msgs := [msg0; msg1]; rerr := None |} ] quiet))
      = Ok (2, None) w' /\
    ch (proc w') = [msg0; msg1] /\
    ctr (proc w') InFlight = 2 /\ wg (proc w') = 2.
Proof.
  pose proof (fetchMessages_adds
                (running options1
                   (set_reserves [ {| msgs := [msg0; msg1]; rerr := None |} ] quiet))
                {| msgs := [msg0; msg1]; rerr := None |} []) as H.
  cbn [rerr] in H.
  destruct H as (w' & Hrun & _ & Hch & _ & Hwg & Hin & _); try evaluate.
  exists w'. split; [exact Hrun |]. rewrite Hch, Hin, Hwg. repeat split; evaluate.
Defined.


(** What a returning [process] returns: nil for a message that is not due,
    and otherwise what the handler returned. *)
Lemma process_returns (workerId : Z) (msg : Message) (w w' : World)
      (r : option error) :
  process workerId msg w = Ok r w' ->
  r = if Delay msg >? 0 then None else failure (handler (proc w) msg).
Proof.
  destruct (Delay msg >? 0) eqn:E.
  - unfold process. rewrite E. cbv [mbind M_bind].
    destruct (release msg None w); try discriminate. run. congruence.
  - assert (Hdue : Delay msg <= 0) by (apply Z.gtb_ltb in E || idtac; lia).
    rewrite (process_due _ _ _ Hdue). cbv [mbind M_bind].
    destruct ((if (workerId >=? 0) && (MaxWorkers (opt (proc w)) >? 0)
               then lockWorker workerId else mret ()) w) as [[] w1 | |];
      try discriminate.
    intros Ht. destruct (process_tail_effect _ _ _ _ _ _ Ht) as (_ & _ & evs & _ & Hcase).
    destruct (failure (handler (proc w) msg)); destruct Hcase as [-> _]; reflexivity.
Qed.

(** [ProcessOne] with nothing buffered and a [ReserveN] that brings no
    message returns the "queue is empty" error, also when the backend only
    reports that it cannot reserve; any other error of [ReserveN] is
    returned as it is.  Either way nothing is processed or waited for. *)
Theorem ProcessOne_empty (waitErr : option error) (w : World)
        (rep : reserve_reply) (rest : list reserve_reply) :
  ch (proc w) = [] ->
  reserves (env w) = rep :: rest ->
  let w1 := {| proc := proc w; env := set_reserves rest (env w);
               trace := trace w ++ [Reserve 1] |} in
  (forall e, rerr rep = Some e -> isNotSupported e = false ->
             ProcessOne waitErr w = Ok (Some e) w1) /\
  (msgs rep = [] ->
   (forall e, rerr rep = Some e -> isNotSupported e = true) ->
   ProcessOne waitErr w = Ok (Some ErrQueueEmpty) w1).
Proof.
  intros Hch Hres w1. unfold ProcessOne, reserveOne, tryReceive. run.
  rewrite Hch. run. rewrite Hres. run.
  destruct rep as [ms re]. cbn [rerr msgs]. split.
  - intros e -> He. rewrite He. run. reflexivity.
  - intros -> Hns. destruct re as [e |]; [rewrite (Hns e eq_refl) |]; run; reflexivity.
Qed.

Lemma ProcessOne_empty_witness :
  exists w1,
    ProcessOne None
      (running options1 (set_reserves [ {| msgs := []; rerr := Some ErrNotSupported |} ] quiet))
      = Ok (Some ErrQueueEmpty) w1 /\
    trace w1 = [Reserve 1].
Proof.
  destruct (ProcessOne_empty None
              (running options1
                 (set_reserves [ {| msgs := []; rerr := Some ErrNotSupported |} ] quiet))
              {| msgs := []; rerr := Some ErrNotSupported |} [] eq_refl eq_refl)
    as [_ H].
  eexists. split.
  - apply H; [reflexivity |]. intros e [= <-]. reflexivity.
  - evaluate.
Defined.

(** [reserveOne] with nothing buffered takes the first message [ReserveN]
    brings and counts it in [inFlight]; what else came is dropped. *)
Lemma reserveOne_first (w : World) (m : Message) (more : list Message)
      (re : option error) (rest : list reserve_reply) :
  ch (proc w) = [] ->
  reserves (env w) = {| msgs := m :: more; rerr := re |} :: rest ->
  (forall e, re = Some e -> isNotSupported e = true) ->
  reserveOne w =
  Ok (inl m)
     {| proc := set_ctr (upd InFlight (uint32 (ctr (proc w) InFlight + 1)) (ctr (proc w)))
                  (proc w);
        env := set_reserves rest (env w);
        trace := trace w ++ [Reserve 1] |}.
Proof.
  intros Hch Hres Hns. unfold reserveOne, tryReceive. run. rewrite Hch. run.
  rewrite Hres. run. cbn [rerr msgs].
  destruct re as [e |]; [rewrite (Hns e eq_refl) |]; run; reflexivity.
Qed.

(** [ProcessOne] on a message reserved from the queue, the channel being
    empty: the handler's error comes before the batcher's, the call ends
    with the wait for the batcher, and the accounting balances: [inFlight]
    is back where it was, and the WaitGroup holds the message only while
    the batcher has it. *)
Theorem ProcessOne_from_queue (waitErr : option error) (w w2 : World)
        (m : Message) (more : list Message) (re : option error)
        (rest : list reserve_reply) (r : option error) :
  ch (proc w) = [] ->
  reserves (env w) = {| msgs := m :: more; rerr := re |} :: rest ->
  (forall e, re = Some e -> isNotSupported e = true) ->
  in_uint32 (ctr (proc w) InFlight) ->
  ProcessOne waitErr w = Ok r w2 ->
  r = match (if Delay m >? 0 then None else failure (handler (proc w) m)) with
      | Some e => Some e
      | None => waitErr
      end /\
  ctr (proc w2) InFlight = ctr (proc w) InFlight /\
  (exists evs, appended w w2 (Reserve 1 :: evs ++ [BatchWait])) /\
  ((wg (proc w2) = wg (proc w) /\ ctr (proc w2) Deleting = ctr (proc w) Deleting) \/
   (wg (proc w2) = wg (proc w) + 1 /\
    ctr (proc w2) Deleting = incr32 (ctr (proc w) Deleting))).
Proof.
  intros Hch Hres Hns Hin. unfold ProcessOne. cbv [mbind M_bind].
  rewrite (reserveOne_first _ _ _ _ _ Hch Hres Hns).
  unfold Process. run.
  destruct (wg (proc w) + 1 <? 0) eqn:Ew; [discriminate |]. run.
  match goal with
  | |- context [process (-1) m ?w1] =>
      destruct (process (-1) m w1) as [r1 w3 | |] eqn:Hp; try discriminate
  end.
  pose proof (process_returns _ _ _ _ _ Hp) as Hr.
  destruct (process_effect _ _ _ _ _ Hp) as (Hfl & _ & evs & Happ & Hcase).
  revert Hr Hfl Happ Hcase. unfold appended. run. counters. envs.
  intros Hr Hfl Happ Hcase Hrun.
  assert (Hrun' : Ok r w2 = Ok (match r1 with Some e => Some e | None => waitErr end)
                               {| proc := proc w3; env := env w3;
                                  trace := trace w3 ++ [BatchWait] |})
    by (rewrite <- Hrun; destruct waitErr, r1; reflexivity).
  injection Hrun' as -> ->. subst r1. cbn [proc trace].
  split; [reflexivity |].
  split; [rewrite Hfl; apply (decr32_incr32 _ Hin) |].
  split; [exists evs; rewrite Happ, <- !app_assoc; reflexivity |].
  destruct Hcase as [(H1 & H2 & _) | (H1 & H2 & _)]; [left | right]; split;
    try assumption; lia.
Qed.

Lemma ProcessOne_from_queue_witness :
  let w := running options1
             (set_reserves [ {| msgs := [msg1; msg0]; rerr := None |} ] quiet) in
  ProcessOne (Some down) w
  = Ok (Some boom) (world_of (ProcessOne (Some down) w)) /\
  ctr (proc (world_of (ProcessOne (Some down) w))) InFlight = 0.
Proof.
  cbv zeta.
  assert (Hrun : ProcessOne (Some down)
                   (running options1
                      (set_reserves [ {| msgs := [msg1; msg0]; rerr := None |} ] quiet))
                 = Ok (Some boom)
                      (world_of (ProcessOne (Some down)
                         (running options1
                            (set_reserves [ {| msgs := [msg1; msg0]; rerr := None |} ]
                               quiet))))) by evaluate.
  split; [exact Hrun |].
  assert (Hch : ch (proc (running options1
                      (set_reserves [ {| msgs := [msg1; msg0]; rerr := None |} ] quiet)))
                = []) by evaluate.
  assert (Hres : reserves (env (running options1
                      (set_reserves [ {| msgs := [msg1; msg0]; rerr := None |} ] quiet)))
                 = [ {| msgs := [msg1; msg0]; rerr := None |} ]) by evaluate.
  assert (Hns : forall e : error, None = Some e -> isNotSupported e = true)
    by discriminate.
  assert (Hfl : in_uint32 (ctr (proc (running options1
                      (set_reserves [ {| msgs := [msg1; msg0]; rerr := None |} ] quiet)))
                      InFlight)) by evaluate.
  destruct (ProcessOne_from_queue (Some down) _ _ msg1 [msg0] None [] (Some boom)
              Hch Hres Hns Hfl Hrun) as (_ & Hin & _).
  rewrite Hin. evaluate.
Defined.

(** [ProcessOne] on a message that [Add] put into the empty channel counts
    it a second time in the WaitGroup: [Add] counted it when it was
    buffered and [Process] counts it again, while release or batcher settle
    it once.  [inFlight] balances, but the WaitGroup stays one above where
    it was before the message was added, also after the batcher's
    callback. *)
Theorem ProcessOne_from_channel (waitErr : option error) (msg : Message)
        (w w2 : World) (r : option error) :
  ch (proc w) = [] ->
  0 <= wg (proc w) ->
  in_uint32 (ctr (proc w) InFlight) ->
  in_uint32 (ctr (proc w) Deleting) ->
  (Add msg;; ProcessOne waitErr) w = Ok r w2 ->
  ctr (proc w2) InFlight = ctr (proc w) InFlight /\
  ((wg (proc w2) = wg (proc w) + 1 /\
    ctr (proc w2) Deleting = ctr (proc w) Deleting) \/
   (wg (proc w2) = wg (proc w) + 2 /\
    ctr (proc w2) Deleting = incr32 (ctr (proc w) Deleting) /\
    exists w3,
      deleteBatch [msg] w2 = Ok tt w3 /\
      wg (proc w3) = wg (proc w) + 1 /\
      ctr (proc w3) Deleting = ctr (proc w) Deleting)).
Proof.
  intros Hch Hwg Hin Hdel. unfold Add, send, ProcessOne, reserveOne, tryReceive, Process.
  run.
  destruct (wg (proc w) + 1 <? 0) eqn:E1; [lia |]. run.
  destruct (Z.of_nat (length (ch (proc w))) <? BufferSize (opt (proc w)));
    [| discriminate].
  run. rewrite Hch. cbn [app]. run.
  destruct (wg (proc w) + 1 + 1 <? 0) eqn:E2; [lia |]. run.
  match goal with
  | |- context [process (-1) msg ?w1] =>
      destruct (process (-1) msg w1) as [r1 w3 | |] eqn:Hp; try discriminate
  end.
  destruct (process_effect _ _ _ _ _ Hp) as (Hfl & _ & evs & _ & Hcase).
  revert Hfl Hcase. run. counters. intros Hfl Hcase Hrun.
  assert (Hw2 : w2 = {| proc := proc w3; env := env w3;
                        trace := trace w3 ++ [BatchWait] |})
    by (destruct waitErr, r1; injection Hrun as _ <-; reflexivity).
  subst w2. cbn [proc].
  split; [rewrite Hfl; apply (decr32_incr32 _ Hin) |].
  destruct Hcase as [(H1 & H2 & _) | (H1 & H2 & _)].
  - left. split; [lia | exact H2].
  - right. split; [lia |]. split; [exact H2 |].
    unfold deleteBatch. cbn [length wgDoneTimes]. run.
    assert (Ew : (wg (proc w3) + -1 <? 0) = false) by (apply Z.ltb_ge; lia).
    destruct (DeleteBatch (q (proc w3)) [msg]); run; rewrite Ew; run;
      eexists; (split; [reflexivity |]); run; counters;
      (split; [lia |]);
      rewrite H2; change (2 ^ 32 - Z.of_nat 1) with (2 ^ 32 - 1);
      apply (decr32_incr32 _ Hdel).
Qed.

Lemma ProcessOne_from_channel_witness :
  let w2 := world_of ((Add msg0;; ProcessOne None) (running options1 quiet)) in
  exists w3, deleteBatch [msg0] w2 = Ok tt w3 /\ wg (proc w3) = 1.
Proof.
  cbv zeta.
  assert (H0 : ch (proc (running options1 quiet)) = []) by evaluate.
  assert (H1 : 0 <= wg (proc (running options1 quiet))) by evaluate.
  assert (H2 : in_uint32 (ctr (proc (running options1 quiet)) InFlight)) by evaluate.
  assert (H3 : in_uint32 (ctr (proc (running options1 quiet)) Deleting)) by evaluate.
  assert (Hrun : (Add msg0;; ProcessOne None) (running options1 quiet)
                 = Ok None (world_of ((Add msg0;; ProcessOne None)
                                        (running options1 quiet))))
    by evaluate.
  destruct (ProcessOne_from_channel None msg0 _ _ None H0 H1 H2 H3 Hrun) as (_ & Hcase).
  destruct Hcase as [[Hwg _] | (_ & _ & w3 & Hd & Hwg & _)].
  - exfalso. revert Hwg. vm_compute. discriminate.
  - exists w3. split; [exact Hd |]. rewrite Hwg. evaluate.
Defined.

End EntryPoints.

(** ** Sequences of lifecycle calls *)

Section LifecycleCalls.

Import GoInt processor Runs Calls Samples.

(** One lifecycle call keeps the invariant and does not panic. *)
Lemma perform_inv (c : call) (w : World) :
  lifecycle_inv w ->
  match perform c w with
  | Ok _ w' => lifecycle_inv w'
  | Pending _ => True
  | Panic _ _ => False
  end.
Proof.
  intros (Hopen & Hwwg & Hn).
  assert (Hstop : forall d,
            match stopWorkersTimeout d w with
            | Ok _ w' => lifecycle_inv w'
            | Pending _ => True
            | Panic _ _ => False
            end).
  { intros d. unfold stopWorkersTimeout, closeStopWorkers, waitWorkers. run.
    destruct (ctr (proc w) Started =? 1) eqn:E; run.
    - apply Z.eqb_eq in E.
      destruct (drains (env w)) as [| [] ds]; run; [exact I | |].
      + rewrite (Hopen E). run.
        destruct (strays (proc w) =? 0); run; [| exact I].
        envs. destruct (exits (env w)) as [| [] xs]; run; try exact I.
        unfold lifecycle_inv; run; counters.
        split; [discriminate |]. split; lia.
      + unfold lifecycle_inv; run; counters.
        split; [discriminate |]. split; lia.
    - rewrite ?world_eta. unfold lifecycle_inv. auto. }
  destruct c as [| | d]; [| apply Hstop | apply Hstop].
  cbn [perform]. unfold Start, startWorkers. run.
  destruct (ctr (proc w) Started =? 0) eqn:E; run.
  - destruct (workersWG (proc w) + WorkerNumber (opt (proc w)) <? 0) eqn:E1; [lia |].
    run. rewrite spawnWorkers_run. run.
    destruct (workersWG (proc w) + WorkerNumber (opt (proc w)) + 1 <? 0) eqn:E2; [lia |].
    run. unfold lifecycle_inv. run. split; [reflexivity |]. split; lia.
  - rewrite ?world_eta. unfold lifecycle_inv. auto.
Qed.

(** No sequence of [Start], [Stop] and [StopTimeout] calls panics on a
    processor whose [stopWorkers] is open whenever it is started: in
    particular [stopWorkers] is never closed twice, and never closed before
    it was made.  A processor fresh from [New] is such a processor. *)
Theorem lifecycle_never_panics (cs : list call) :
  forall w : World,
    lifecycle_inv w ->
    match performAll cs w with
    | Ok _ w' => lifecycle_inv w'
    | Pending _ => True
    | Panic _ _ => False
    end.
Proof.
  induction cs as [| c cs IH]; intros w Hinv.
  - exact Hinv.
  - cbn [performAll]. cbv [mbind M_bind].
    pose proof (perform_inv c w Hinv) as Hc.
    destruct (perform c w) as [r w1 | |]; [| exact Hc | exact I].
    apply IH. exact Hc.
Qed.

Lemma New_lifecycle_inv (qu : Queuer) (o : Options) (rd : Redis) (h : Message -> Run)
      (fb : option (Message -> option error)) (w : World) :
  0 <= WorkerNumber o ->
  lifecycle_inv (world_of (New qu o rd h fb w)).
Proof.
  intros Hn. unfold New. run.
  destruct (MaxWorkers o >? 0); run; cbn [world_of]; unfold lifecycle_inv; run;
    (split; [discriminate |]); split; lia.
Qed.

(** On a processor fresh from [New]: a start, a stop that drains and sees
    the workers and the fetcher return, a start again, a stop that runs into
    its deadline, and one more stop.  And the sequence in which the second
    start follows the stop that ran into its deadline: nothing panics, and
    the last stop waits (for good) for the workers of the first start. *)
Lemma lifecycle_never_panics_witness :
  (exists w',
     performAll [CallStart; CallStop; CallStart; CallStopTimeout time.Second; CallStop]
                (fresh options0 (set_exits [true] (set_drains [true; false] quiet)))
     = Ok tt w' /\
     lifecycle_inv w' /\
     ctr (proc w') Started = 0 /\ stopWorkers (proc w') = ChanOpen) /\
  (exists w',
     performAll [CallStart; CallStopTimeout time.Second; CallStart; CallStop]
                (fresh options0 (set_exits [true] (set_drains [false; true] quiet)))
     = Pending w' /\
     strays (proc w') = 4).
Proof.
  split.
  - pose proof (lifecycle_never_panics
                  [CallStart; CallStop; CallStart; CallStopTimeout time.Second; CallStop]
                  (fresh options0 (set_exits [true] (set_drains [true; false] quiet))))
      as H.
    assert (Hinv : lifecycle_inv
                     (fresh options0 (set_exits [true] (set_drains [true; false] quiet)))).
    { split; [| split]; evaluate. }
    specialize (H Hinv).
    assert (Hrun : performAll
                     [CallStart; CallStop; CallStart; CallStopTimeout time.Second; CallStop]
                     (fresh options0 (set_exits [true] (set_drains [true; false] quiet)))
                   = Ok tt
                        (world_of
                           (performAll
                              [CallStart; CallStop; CallStart;
                               CallStopTimeout time.Second; CallStop]
                              (fresh options0
                                 (set_exits [true] (set_drains [true; false] quiet))))))
      by (vm_compute; reflexivity).
    rewrite Hrun in H. eexists. split; [exact Hrun |].
    split; [exact H |]. split; vm_compute; reflexivity.
  - eexists. split; vm_compute; reflexivity.
Defined.

(** After a [StopTimeout] that ran into its deadline a [Start] starts anew:
    it makes a fresh [stopWorkers] and launches the workers and the fetcher
    again, although the workers launched before were never told to stop;
    they stay counted in the workers' WaitGroup. *)
Theorem Start_after_deadline (w : World) (d : Z) (ds : list bool) :
  ctr (proc w) Started = 1 ->
  drains (env w) = false :: ds ->
  0 <= WorkerNumber (opt (proc w)) ->
  0 <= workersWG (proc w) ->
  exists w',
    (StopTimeout d;; Start) w = Ok None w' /\
    appended w w'
      (Go GWaitInFlight :: MakeStop
         :: launched (Z.to_nat (WorkerNumber (opt (proc w)))) 0 ++ [Go GFetcher]) /\
    ctr (proc w') Started = 1 /\
    stopWorkers (proc w') = ChanOpen /\
    workersWG (proc w') = workersWG (proc w) + WorkerNumber (opt (proc w)) + 1.
Proof.
  intros Hs Hd Hn Hwwg. unfold StopTimeout, stopWorkersTimeout, Start, startWorkers.
  run. rewrite Hs, Z.eqb_refl. run. rewrite Hd. run. counters. cbn [Z.eqb]. run.
  destruct (workersWG (proc w) + WorkerNumber (opt (proc w)) <? 0) eqn:E1; [lia |].
  run. rewrite spawnWorkers_run. run.
  destruct (workersWG (proc w) + WorkerNumber (opt (proc w)) + 1 <? 0) eqn:E2; [lia |].
  run. eexists. split; [reflexivity |]. run. counters.
  split; [unfold appended; rewrite <- !app_assoc; reflexivity |].
  repeat split.
Qed.

Lemma Start_after_deadline_witness :
  exists w',
    (StopTimeout time.Second;; Start) (running options1 (set_drains [false] quiet))
      = Ok None w' /\
    trace w' = [Go GWaitInFlight; MakeStop; Go (GWorker 0); Go (GWorker 1); Go GFetcher] /\
    workersWG (proc w') = 6.
Proof.
  assert (H1 : ctr (proc (running options1 (set_drains [false] quiet))) Started = 1)
    by evaluate.
  assert (H2 : drains (env (running options1 (set_drains [false] quiet))) = [false])
    by evaluate.
  assert (H3 : 0 <= WorkerNumber (opt (proc (running options1 (set_drains [false] quiet)))))
    by evaluate.
  assert (H4 : 0 <= workersWG (proc (running options1 (set_drains [false] quiet))))
    by evaluate.
  destruct (Start_after_deadline _ time.Second [] H1 H2 H3 H4)
    as (w' & Hrun & Happ & _ & _ & Hwg).
  exists w'. split; [exact Hrun |]. split.
  - unfold appended in Happ. rewrite Happ. evaluate.
  - rewrite Hwg. evaluate.
Defined.

End LifecycleCalls.
